(** * The collection server of defector (cmd/server/server.go)

    The server owns a map of pending work items, hands one item to every
    worker that calls [Work], stores the data a worker reports back, and
    puts an item back (with its "www." prefix toggled) when the reported
    data is too short.  This file embeds [main]'s work creation loop,
    [Work], [store] and [outputFileName] and proves properties of them.

    Go strings are byte sequences and are modelled by [string]; [[]byte]
    is [list byte]; the maps [work] and [workers] are [gmap]s; Go's [int]
    is a 64-bit two's complement integer, modelled by [Z] with the
    wrap-around of [++] written out. *)

From Stdlib Require Import ZArith Lia Ascii String Strings.Byte.
From stdpp Require Import gmap strings list fin_maps pretty relations.

(** ** Go primitives used by the server *)

Module Go.

Definition int_max : Z := 2 ^ 63 - 1.
Definition int_min : Z := - 2 ^ 63.

(** Two's complement reduction of a mathematical integer to [int]. *)
Definition wrap (x : Z) : Z := ((x + 2 ^ 63) `mod` 2 ^ 64 - 2 ^ 63)%Z.

(** [x++] on an [int]. *)
Definition incr (x : Z) : Z := wrap (x + 1).

(** [len(b)] of a byte slice. *)
Definition len (b : list byte) : Z := Z.of_nat (length b).

(** [strings.HasPrefix(s, p)]: [s] starts with the bytes of [p]. *)
Fixpoint HasPrefix (s p : string) {struct p} : bool :=
  match p, s with
  | EmptyString, _ => true
  | String _ _, EmptyString => false
  | String a p', String b s' => Ascii.eqb a b && HasPrefix s' p'
  end.

(** The slice expression [s[n:]], for [n <= len(s)]. *)
Fixpoint slice_from (n : nat) (s : string) : string :=
  match n, s with
  | O, _ => s
  | S n', String _ s' => slice_from n' s'
  | S _, EmptyString => EmptyString
  end.

(** [strconv.Itoa]: the decimal digits of an [int]. *)
Definition Itoa (n : Z) : string := pretty n.

End Go.

(** ** Package path: [Clean] and [Join]

    [path.Clean] works on the slash-separated elements of its argument: it
    drops empty and "." elements, lets an inner ".." cancel the element
    written before it, drops ".." at the start of a rooted path and keeps
    it at the start of a relative one. *)

Module path.

(** The elements between the slashes of [s]; never the empty list. *)
Fixpoint elements (s : string) : list string :=
  match s with
  | EmptyString => [EmptyString]
  | String c s' =>
      if Ascii.eqb c "/" then EmptyString :: elements s'
      else match elements s' with
           | e :: es => String c e :: es
           | [] => [String c EmptyString]
           end
  end.

(** The elements written to the output, joined by single slashes. *)
Fixpoint slashed (es : list string) : string :=
  match es with
  | [] => EmptyString
  | [e] => e
  | e :: es' => e +:+ "/" +:+ slashed es'
  end.

(** One round of the loop of [Clean]; [out] holds the elements written
    so far, the last one first. *)
Definition clean_step (rooted : bool) (out : list string) (e : string)
  : list string :=
  if decide (e = "" ∨ e = ".") then out
  else if decide (e = "..") then
    match out with
    | top :: rest => if decide (top = "..") then ".." :: out else rest
    | [] => if rooted then [] else [".."]
    end
  else e :: out.

Definition Clean (p : string) : string :=
  if decide (p = "") then "."
  else
    let rooted := Go.HasPrefix p "/" in
    let out := foldl (clean_step rooted) [] (elements p) in
    let body := slashed (rev out) in
    if rooted then "/" +:+ body
    else if decide (body = "") then "." else body.

(** [Join] ignores empty elements, joins the others with slashes and
    cleans the result; it returns the empty string when nothing is left. *)
Definition Join (elem : list string) : string :=
  match filter (λ e, e ≠ "") elem with
  | [] => ""
  | es => Clean (slashed es)
  end.

(** [p] names something strictly below the directory [dir]: the elements
    of the cleaned [dir] are the first elements of [p] and are followed
    by at least one more element.  Meant for a [dir] that is neither
    "." nor "/". *)
Definition below (dir p : string) : bool :=
  Go.HasPrefix p (Clean dir +:+ "/").

End path.

(** ** Package net/url

    The server parses every page of its input as a URL, fills in the
    scheme when the page has none, and prints the URL back.  The
    development is stated over any implementation of these operations;
    [neturl] below gives the one the examples run on. *)

Module url.

Class Lib := {
  URL : Type;
  (** [Parse] returns [None] when net/url reports an error. *)
  Parse : string → option URL;
  (** The field [Scheme] and the assignment to it. *)
  Scheme : URL → string;
  set_Scheme : string → URL → URL;
  (** The method [String]. *)
  String : URL → string;
}.

End url.

(** The part of net/url that decides plain targets: a host name with an
    optional path, optionally preceded by [scheme://] or [scheme:].  Queries,
    fragments, user information and percent escapes, which the real package
    splits off and checks, are not part of this model: a target with one of
    them is read as if its characters were ordinary path characters. *)

Module neturl.

Record URL := { Scheme : string; Opaque : string; Host : string; Path : string }.

Definition is_letter (c : ascii) : bool :=
  let n := nat_of_ascii c in
  ((97 <=? n) && (n <=? 122) || (65 <=? n) && (n <=? 90))%nat.

Definition is_scheme_char (c : ascii) : bool :=
  let n := nat_of_ascii c in
  ((48 <=? n) && (n <=? 57))%nat
  || Ascii.eqb c "+" || Ascii.eqb c "-" || Ascii.eqb c ".".

Definition lower (c : ascii) : ascii :=
  let n := nat_of_ascii c in
  if ((65 <=? n) && (n <=? 90))%nat then ascii_of_nat (n + 32) else c.

Fixpoint ToLower (s : string) : string :=
  match s with
  | EmptyString => EmptyString
  | String.String c s' => String.String (lower c) (ToLower s')
  end.

(** [getscheme]: [i] is the loop index, [seen] the bytes before it in
    reverse order, [s] the bytes from [i] on.  The result is [None] for
    the error "missing protocol scheme", and the scheme with the rest
    otherwise. *)
Fixpoint getscheme_from (raw : string) (i : nat) (seen s : string)
  : option (string * string) :=
  match s with
  | EmptyString => Some (EmptyString, raw)
  | String.String c s' =>
      if is_letter c then
        getscheme_from raw (S i) (String.String c seen) s'
      else if is_scheme_char c then
        match i with
        | O => Some (EmptyString, raw)
        | S _ => getscheme_from raw (S i) (String.String c seen) s'
        end
      else if Ascii.eqb c ":" then
        match i with
        | O => None
        | S _ => Some (String.rev seen, s')
        end
      else Some (EmptyString, raw)
  end.

Definition getscheme (raw : string) : option (string * string) :=
  getscheme_from raw 0 EmptyString raw.

(** [split(s, "/", false)]: the part before the first slash and the part
    from that slash on. *)
Fixpoint split_at_slash (s : string) : string * string :=
  match s with
  | EmptyString => (EmptyString, EmptyString)
  | String.String c s' =>
      if Ascii.eqb c "/" then (EmptyString, s)
      else let '(a, b) := split_at_slash s' in (String.String c a, b)
  end.

Definition Parse (raw : string) : option URL :=
  if decide (raw = "*") then
    Some {| Scheme := ""; Opaque := ""; Host := ""; Path := "*" |}
  else
    match getscheme raw with
    | None => None
    | Some (sch, rest) =>
        let sch := ToLower sch in
        if negb (Go.HasPrefix rest "/") && bool_decide (sch ≠ "") then
          Some {| Scheme := sch; Opaque := rest; Host := ""; Path := "" |}
        else if (bool_decide (sch ≠ "") || negb (Go.HasPrefix rest "///"))
                && Go.HasPrefix rest "//" then
          let '(authority, rest) := split_at_slash (Go.slice_from 2 rest) in
          Some {| Scheme := sch; Opaque := ""; Host := authority; Path := rest |}
        else
          Some {| Scheme := sch; Opaque := ""; Host := ""; Path := rest |}
    end.

Definition set_Scheme (sch : string) (u : URL) : URL :=
  {| Scheme := sch; Opaque := Opaque u; Host := Host u; Path := Path u |}.

Definition String (u : URL) : string :=
  (if decide (Scheme u = "") then "" else Scheme u +:+ ":") +:+
  (if decide (Opaque u = "") then
     (if decide (Scheme u = "" ∧ Host u = "") then "" else "//" +:+ Host u) +:+
     (if negb (bool_decide (Path u = "")) && negb (Go.HasPrefix (Path u) "/")
         && negb (bool_decide (Host u = ""))
      then "/" else "") +:+
     Path u
   else Opaque u).

End neturl.

#[global] Instance go_url : url.Lib :=
  {| url.URL := neturl.URL;
     url.Parse := neturl.Parse;
     url.Scheme := neturl.Scheme;
     url.set_Scheme := neturl.set_Scheme;
     url.String := neturl.String |}.

(** ** The messages of collect.proto *)

Module pb.

(** Browse is a work item.  If [ID] is empty, no work has been done
    (request) or is needed (reply). *)
Record Browse := {
  ID : string;
  URL : string;
  Timeout : Z;
  Data : list byte;
  AllTraffic : bool;
}.

(** The field [Browse] of a request is a pointer; [None] is nil, which is
    what decoding leaves when the message on the wire has no such field. *)
Record Req := {
  WorkerID : string;
  Req_Browse : option Browse;
}.

End pb.

(** ** The server: flags and global variables *)

Record flags := {
  timeout : Z;
  samples : Z;
  datadir : string;
  scheme : string;
  alltraffic : bool;
  minDataLen : Z;
  outputSuffix : string;
}.

(** The values of the flags when the command line sets none of them. *)
Definition default_flags : flags :=
  {| timeout := 15; samples := 1; datadir := "data"; scheme := "http";
     alltraffic := false; minDataLen := 25; outputSuffix := ".pcap" |}.

Record item := { ID : string; URL : string }.

(** The globals [work], [workers] and [done], which [Work] reads and writes
    under [lock], together with the regular files the server sees: [files]
    maps the name of every existing file to its content. *)
Record state := {
  work : gmap string item;
  workers : gmap string string;
  done : Z;
  files : gmap string (list byte);
}.

Definition set_work (f : gmap string item → gmap string item) (st : state) : state :=
  {| work := f (work st); workers := workers st; done := done st;
     files := files st |}.

Definition set_workers (f : gmap string string → gmap string string) (st : state) : state :=
  {| work := work st; workers := f (workers st); done := done st;
     files := files st |}.

Definition set_done (f : Z → Z) (st : state) : state :=
  {| work := work st; workers := workers st; done := f (done st);
     files := files st |}.

Definition set_files (f : gmap string (list byte) → gmap string (list byte)) (st : state) : state :=
  {| work := work st; workers := workers st; done := done st;
     files := f (files st) |}.

(** What the world decides during one call of [Work]: where the iteration
    over the map [work] starts, and how [ioutil.WriteFile] ends. *)
Definition error := string.

(** A failed write leaves the file as it was ([None]: it could not be
    opened) or with some other content ([Some]: it was truncated and
    written in part). *)
Inductive write_result :=
| WriteOk
| WriteErr (e : error) (left : option (list byte)).

Record env := { first : nat; write : write_result }.

(** What a call of [Work] gives its caller: the pair [(out, nil)], the pair
    [(nil, err)], or a run-time panic. *)
Inductive outcome :=
| Reply (out : pb.Browse)
| Error (e : error)
| Panic.

(** ** [outputFileName] and [store] *)

Definition outputFileName (fl : flags) (id : string) : string :=
  path.Join [datadir fl; path.Clean id +:+ outputSuffix fl].

Definition store (fl : flags) (w : write_result) (st : state) (b : pb.Browse)
  : state * option error :=
  if decide (0 < Go.len (pb.Data b))%Z then
    match w with
    | WriteOk =>
        (set_done Go.incr
           (set_files <[outputFileName fl (pb.ID b) := pb.Data b]> st), None)
    | WriteErr e None => (st, Some e)
    | WriteErr e (Some bs) =>
        (set_files <[outputFileName fl (pb.ID b) := bs]> st, Some e)
    end
  else (set_done Go.incr st, None).

(** ** [Work] *)

(** "keep tabs on number of workers" *)
Definition register (id : string) (st : state) : state :=
  match workers st !! id with
  | Some _ => st
  | None => set_workers <[id := id]> st
  end.

(** "put back work, toggling www. prefix": the new value of [url]. *)
Definition toggle_www (url : string) : string :=
  if Go.HasPrefix url "www." then Go.slice_from 4 url else "www." +:+ url.

(** "completed work?": the block guarded by [in.Browse.ID != ""]. *)
Definition completed (fl : flags) (w : write_result) (st : state) (b : pb.Browse)
  : state * option error :=
  if decide (pb.ID b ≠ "") then
    if decide (minDataLen fl ≤ Go.len (pb.Data b))%Z then
      match store fl w st b with
      | (st1, Some e) => (st1, Some e)
      | (st1, None) =>
          match work st1 !! pb.ID b with
          | Some _ => (set_work (delete (pb.ID b)) st1, None)
          | None => (st1, None)
          end
      end
    else
      (set_work <[pb.ID b := {| ID := pb.ID b; URL := toggle_www (pb.URL b) |}]> st,
       None)
  else (st, None).

(** The entry the [range] loop over [work] visits first.  Go leaves the
    order of a map iteration open; the entry is the one at position
    [n mod len(work)] of the list of entries. *)
Definition range_first (n : nat) (m : gmap string item) : option (string * item) :=
  map_to_list m !! (n `mod` size m)%nat.

(** "find work": the first round of the loop returns and the deferred
    [delete] runs; with no entry the loop is skipped. *)
Definition find_work (fl : flags) (n : nat) (st : state) : state * pb.Browse :=
  match range_first n (work st) with
  | Some (id, it) =>
      (set_work (delete id) st,
       {| pb.ID := ID it; pb.URL := URL it; pb.Timeout := timeout fl;
          pb.Data := []; pb.AllTraffic := alltraffic fl |})
  | None =>
      (st,
       {| pb.ID := ""; pb.URL := ""; pb.Timeout := timeout fl;
          pb.Data := []; pb.AllTraffic := false |})
  end.

Definition Work (fl : flags) (e : env) (st : state) (req : pb.Req)
  : state * outcome :=
  let st := register (pb.WorkerID req) st in
  match pb.Req_Browse req with
  | None => (st, Panic)
  | Some b =>
      match completed fl (write e) st b with
      | (st1, Some err) => (st1, Error err)
      | (st1, None) =>
          let '(st2, out) := find_work fl (first e) st1 in (st2, Reply out)
      end
  end.

(** ** [main]: creating the work *)

(** The string stored as the URL of a page: the page is parsed, gets the
    scheme of the flags when it has none, and is printed.  [None] stands
    for the nil pointer [url.Parse] returns with an error. *)
Definition page_URL `{url.Lib} (fl : flags) (raw : string) : option string :=
  match url.Parse raw with
  | None => None
  | Some page =>
      let page := if decide (url.Scheme page = "")
                  then url.set_Scheme (scheme fl) page else page in
      Some (url.String page)
  end.

Definition work_id (name : string) (s : Z) : string :=
  name +:+ "-" +:+ Go.Itoa s.

(** The body of the inner loop for the row [row] and the sample [s].
    [os.Stat] is taken to fail only for a name that is not in [fs], and
    then with an error [os.IsNotExist] accepts. *)
Definition create_item `{url.Lib} (fl : flags) (fs : gmap string (list byte))
    (s : Z) (acc : gmap string item * Z) (row : string * string)
  : option (gmap string item * Z) :=
  match page_URL fl row.2 with
  | None => None
  | Some u =>
      let id := work_id row.1 s in
      match fs !! outputFileName fl id with
      | None => Some (<[id := {| ID := id; URL := u |}]> acc.1, acc.2)
      | Some _ => Some (acc.1, Go.incr acc.2)
      end
  end.

(** [for i := 0; i < len(pages); i++] *)
Fixpoint pages_loop `{url.Lib} (fl : flags) (fs : gmap string (list byte))
    (s : Z) (pages : list (string * string)) (acc : gmap string item * Z)
  : option (gmap string item * Z) :=
  match pages with
  | [] => Some acc
  | row :: rest =>
      match create_item fl fs s acc row with
      | None => None
      | Some acc' => pages_loop fl fs s rest acc'
      end
  end.

(** [for s := 0; s < *samples; s++], over the values [ss] that [s] takes. *)
Fixpoint samples_loop `{url.Lib} (fl : flags) (fs : gmap string (list byte))
    (ss : list Z) (pages : list (string * string)) (acc : gmap string item * Z)
  : option (gmap string item * Z) :=
  match ss with
  | [] => Some acc
  | s :: rest =>
      match pages_loop fl fs s pages acc with
      | None => None
      | Some acc' => samples_loop fl fs rest pages acc'
      end
  end.

(** [main] up to the point where it starts to serve: every page must parse
    as a URL (otherwise the process exits), then the work is created.  The
    rows of the CSV file are the pairs [pages]; [fs] holds the files that
    exist when the server starts. *)
Definition main `{url.Lib} (fl : flags) (fs : gmap string (list byte))
    (pages : list (string * string)) : option state :=
  if forallb (λ row, bool_decide (is_Some (url.Parse row.2))) pages then
    match samples_loop fl fs (seqZ 0 (samples fl)) pages (∅, 0%Z) with
    | None => None
    | Some (w, d) => Some {| work := w; workers := ∅; done := d; files := fs |}
    end
  else None.

(** The reply that says there is no work. *)
Definition no_work (fl : flags) : pb.Browse :=
  {| pb.ID := ""; pb.URL := ""; pb.Timeout := timeout fl; pb.Data := [];
     pb.AllTraffic := false |}.

(** ** Runs of the server *)

(** Every entry of [work] is stored under its own, non-empty, id. *)
Definition work_ok (m : gmap string item) : Prop :=
  ∀ k it, m !! k = Some it → ID it = k ∧ k ≠ "".

(** The ids the workers hold: handed out by a reply and not reported back
    yet.  The list has one occurrence per hand-out. *)
Fixpoint remove_one (id : string) (held : list string) : list string :=
  match held with
  | [] => []
  | x :: rest => if decide (x = id) then rest else x :: remove_one id rest
  end.

Definition reported (id : string) (held : list string) : list string :=
  if decide (id = "") then held else remove_one id held.

Definition handed_out (id : string) (held : list string) : list string :=
  if decide (id = "") then held else id :: held.

(** One call of [Work] by a worker that keeps to the protocol: the request
    carries a [Browse] whose id is empty or is held by a worker.  A reply
    takes the reported id out of the held ids and adds the id handed out.
    After an error the worker has no new work; it may report the same
    result again or drop it. *)
Inductive poll (fl : flags) : state * list string → state * list string → Prop :=
| poll_reply e st held req b st' out :
    pb.Req_Browse req = Some b →
    pb.ID b = "" ∨ pb.ID b ∈ held →
    Work fl e st req = (st', Reply out) →
    poll fl (st, held) (st', handed_out (pb.ID out) (reported (pb.ID b) held))
| poll_error e st held req b st' err held' :
    pb.Req_Browse req = Some b →
    pb.ID b = "" ∨ pb.ID b ∈ held →
    Work fl e st req = (st', Error err) →
    held' = held ∨ held' = reported (pb.ID b) held →
    poll fl (st, held) (st', held').

(** The rounds of the two loops of [main], in the order they run: the
    sample index and the row of each. *)
Definition iterations (ss : list Z) (pages : list (string * string))
  : list (Z * (string * string)) :=
  s ← ss; (λ row, (s, row)) <$> pages.

(** The loop body run over a list of rounds. *)
Fixpoint run_items `{url.Lib} (fl : flags) (fs : gmap string (list byte))
    (its : list (Z * (string * string))) (acc : gmap string item * Z)
  : option (gmap string item * Z) :=
  match its with
  | [] => Some acc
  | it :: rest =>
      match create_item fl fs it.1 acc it.2 with
      | None => None
      | Some acc' => run_items fl fs rest acc'
      end
  end.

(** A round finds the output file of its id. *)
Definition finds (fl : flags) (fs : gmap string (list byte))
    (it : Z * (string * string)) : Prop :=
  is_Some (fs !! outputFileName fl (work_id it.2.1 it.1)).

(** A round inserts an item under [id]: it derives [id] and there is no
    output file for it. *)
Definition inserts (fl : flags) (fs : gmap string (list byte)) (id : string)
    (it : Z * (string * string)) : Prop :=
  work_id it.2.1 it.1 = id ∧ fs !! outputFileName fl id = None.

(** The item a round inserts under [id]. *)
Definition item_of `{url.Lib} (fl : flags) (id : string)
    (it : Z * (string * string)) : option item :=
  (λ u, {| ID := id; URL := u |}) <$> page_URL fl it.2.2.



(** ** A small run

    One row, one sample, and a minimum data length of 10; everything else
    as the flags default. *)
Definition one_row_flags : flags :=
  {| timeout := 15; samples := 1; datadir := "data"; scheme := "http";
     alltraffic := false; minDataLen := 10; outputSuffix := ".pcap" |}.

Definition one_row_pages : list (string * string) := [("a", "a.com")].

(** The request of a worker [w] that reports [data] for the item [id] with
    the URL [u]; a first contact has an empty [id]. *)
Definition report (fl : flags) (w id u : string) (data : list byte) : pb.Req :=
  {| pb.WorkerID := w;
     pb.Req_Browse := Some {| pb.ID := id; pb.URL := u; pb.Timeout := timeout fl;
                              pb.Data := data; pb.AllTraffic := alltraffic fl |} |}.


(** ** The progress function of [main]

    The goroutine takes [lock] once a second, compares [done] with
    [total := len(pages) * *samples], and exits the process when they are
    equal; otherwise it prints the counters and releases the lock. *)
Definition total (fl : flags) (pages : list (string * string)) : Z :=
  Go.wrap (Z.of_nat (length pages) * samples fl).

(** One round of the loop: [true] when it logs "finished" and exits. *)
Definition finished (fl : flags) (pages : list (string * string)) (st : state)
  : bool :=
  bool_decide (done st = total fl pages).

(** ** The worker (cmd/client)

    The loop of the client's [main] keeps one request [work].  It starts
    with the identity of the worker and a [Browse] with an empty id; every
    round sends [work] to the server. *)
Definition client_first (identity : string) : pb.Req :=
  {| pb.WorkerID := identity;
     pb.Req_Browse := Some {| pb.ID := ""; pb.URL := ""; pb.Timeout := 0;
                              pb.Data := []; pb.AllTraffic := false |} |}.

(** The request of the next round, from the request [work] of this round and
    what the call gave: after an error the client tries again with the same
    request; a reply becomes the [Browse] of the request, and when its id is
    not empty the client browses and sets [Data] to the captured bytes
    [pcapData]. *)
Definition client_next (work : pb.Req) (res : outcome) (pcapData : list byte)
  : pb.Req :=
  match res with
  | Reply browse =>
      if decide (pb.ID browse = "") then
        {| pb.WorkerID := pb.WorkerID work; pb.Req_Browse := Some browse |}
      else
        {| pb.WorkerID := pb.WorkerID work;
           pb.Req_Browse :=
             Some {| pb.ID := pb.ID browse; pb.URL := pb.URL browse;
                     pb.Timeout := pb.Timeout browse; pb.Data := pcapData;
                     pb.AllTraffic := pb.AllTraffic browse |} |}
  | Error _ | Panic => work
  end.

(** The id a request reports. *)
Definition reported_id (req : pb.Req) : string :=
  match pb.Req_Browse req with
  | Some b => pb.ID b
  | None => ""
  end.

(** The ids the clients are working on: the non-empty ids of their
    requests. *)
Definition held_ids (clients : list pb.Req) : list string :=
  filter (λ id, id ≠ "") (reported_id <$> clients).

(** The server with its clients: a state of the server and the request each
    client sends next.  In a step one client calls [Work]; a panic of the
    handler ends the server, so it is no step. *)
Inductive serve (fl : flags) : state * list pb.Req → state * list pb.Req → Prop :=
| serve_call e st clients i work st' res pcapData :
    clients !! i = Some work →
    Work fl e st work = (st', res) →
    res ≠ Panic →
    serve fl (st, clients) (st', <[i := client_next work res pcapData]> clients).

(** No id is held twice, and no held id is in [work]. *)
Definition held_ok (st : state) (held : list string) : Prop :=
  NoDup held ∧ ∀ id, id ∈ held → work st !! id = None.

(** No byte of the string is a slash. *)
Fixpoint slashless (s : string) : Prop :=
  match s with
  | EmptyString => True
  | String c s' => c ≠ "/"%char ∧ slashless s'
  end.

(** An id that is one ordinary path element. *)
Definition plain_id (id : string) : Prop :=
  id ≠ "" ∧ id ≠ "." ∧ id ≠ ".." ∧ slashless id.

(** * Properties *)

(** ** The models of the library functions on known inputs *)

(** Rows of the table of test cases of package path. *)
Example Clean_tests :
  path.Clean "" = "." ∧ path.Clean "abc" = "abc" ∧
  path.Clean "abc/" = "abc" ∧ path.Clean "/" = "/" ∧
  path.Clean ".." = ".." ∧ path.Clean "../../abc" = "../../abc" ∧
  path.Clean "//abc//" = "/abc" ∧ path.Clean "abc/./def" = "abc/def" ∧
  path.Clean "abc/def/ghi/../jkl" = "abc/def/jkl" ∧
  path.Clean "abc/def/../.." = "." ∧ path.Clean "/abc/def/../.." = "/" ∧
  path.Clean "abc/def/../../.." = ".." ∧
  path.Clean "/abc/def/../../.." = "/" ∧
  path.Clean "abc/def/../../../ghi/jkl/../../../mno" = "../../mno" ∧
  path.Clean "abc/../../././../def" = "../../def".
Proof. repeat split; reflexivity. Qed.

Example Join_tests :
  path.Join ["a"; "b"] = "a/b" ∧ path.Join ["a"; ""] = "a" ∧
  path.Join [""; "b"] = "b" ∧ path.Join ["/"; "a"] = "/a" ∧
  path.Join ["a/"; "b"] = "a/b" ∧ path.Join [""; ""] = "" ∧
  path.Join ["a"; "../b"] = "b".
Proof. repeat split; reflexivity. Qed.

Example Parse_String_tests :
  (url.String <$> url.Parse "a.com") = Some "a.com" ∧
  (url.String <$> url.Parse "http://a.com/x") = Some "http://a.com/x" ∧
  (url.Scheme <$> url.Parse "HTTPS://a.com") = Some "https" ∧
  (url.Scheme <$> url.Parse "a.com") = Some "" ∧
  (url.String <$> url.Parse "mailto:a@b.c") = Some "mailto:a@b.c" ∧
  (url.String <$> url.Parse "//a.com/x") = Some "//a.com/x" ∧
  (url.String <$> url.Parse ":a") = None.
Proof. repeat split; reflexivity. Qed.

Example page_URL_tests :
  page_URL default_flags "a.com" = Some "http://a.com" ∧
  page_URL default_flags "https://a.com" = Some "https://a.com" ∧
  page_URL default_flags "www.a.com/x" = Some "http://www.a.com/x".
Proof. repeat split; reflexivity. Qed.

Example outputFileName_tests :
  outputFileName default_flags "a-0" = "data/a-0.pcap" ∧
  outputFileName default_flags "a/./b-1" = "data/a/b-1.pcap".
Proof. split; reflexivity. Qed.

(** ** Arithmetic of [int] *)

Lemma wrap_id (x : Z) :
  (Go.int_min ≤ x ≤ Go.int_max)%Z → Go.wrap x = x.
Proof.
  unfold Go.wrap, Go.int_min, Go.int_max. intros Hx.
  rewrite Z.mod_small; lia.
Qed.

Lemma wrap_range (x : Z) : (Go.int_min ≤ Go.wrap x ≤ Go.int_max)%Z.
Proof.
  unfold Go.wrap, Go.int_min, Go.int_max.
  pose proof (Z.mod_pos_bound (x + 2 ^ 63) (2 ^ 64)) as Hb. lia.
Qed.

Lemma wrap_wrap_succ (x : Z) : Go.wrap (Go.wrap x + 1) = Go.wrap (x + 1).
Proof.
  unfold Go.wrap.
  replace ((x + 2 ^ 63) `mod` 2 ^ 64 - 2 ^ 63 + 1 + 2 ^ 63)%Z
    with ((x + 2 ^ 63) `mod` 2 ^ 64 + 1)%Z by lia.
  replace (x + 1 + 2 ^ 63)%Z with ((x + 2 ^ 63) + 1)%Z by lia.
  rewrite (Z.add_mod (x + 2 ^ 63) 1) by lia.
  rewrite (Z.add_mod ((x + 2 ^ 63) `mod` 2 ^ 64) 1) by lia.
  rewrite Z.mod_mod by lia. reflexivity.
Qed.

Lemma incr_succ (x : Z) :
  (Go.int_min - 1 ≤ x < Go.int_max)%Z → Go.incr x = (x + 1)%Z.
Proof. intros Hx. unfold Go.incr. apply wrap_id. lia. Qed.

Lemma incr_le_succ (x : Z) : (Go.int_min ≤ x)%Z → (Go.incr x ≤ x + 1)%Z.
Proof.
  intros Hx. destruct (decide (x < Go.int_max)%Z) as [Hlt|Hge].
  - rewrite incr_succ; lia.
  - pose proof (wrap_range (x + 1)) as Hr. unfold Go.incr. lia.
Qed.

Lemma incr_range (x : Z) : (Go.int_min ≤ Go.incr x ≤ Go.int_max)%Z.
Proof. apply wrap_range. Qed.

(** ** The "www." toggle *)

Lemma HasPrefix_www_app (r : string) : Go.HasPrefix ("www." +:+ r) "www." = true.
Proof. reflexivity. Qed.

Lemma HasPrefix_www_inv (u : string) :
  Go.HasPrefix u "www." = true → u = "www." +:+ Go.slice_from 4 u.
Proof.
  destruct u as [|c1 [|c2 [|c3 [|c4 r]]]]; cbn [Go.HasPrefix];
    try discriminate.
  - rewrite andb_false_r. discriminate.
  - rewrite !andb_false_r. discriminate.
  - rewrite !andb_false_r. discriminate.
  - rewrite andb_true_r. intros H.
    apply andb_prop in H as [H1 H]. apply andb_prop in H as [H2 H].
    apply andb_prop in H as [H3 H4].
    apply Ascii.eqb_eq in H1, H2, H3, H4. subst. reflexivity.
Qed.

Lemma toggle_www_strip (r : string) : toggle_www ("www." +:+ r) = r.
Proof. reflexivity. Qed.

Lemma toggle_www_add (u : string) :
  Go.HasPrefix u "www." = false → toggle_www u = "www." +:+ u.
Proof. intros Hu. unfold toggle_www. rewrite Hu. reflexivity. Qed.

Lemma toggle_www_twice_add (u : string) :
  Go.HasPrefix u "www." = false → toggle_www (toggle_www u) = u.
Proof. intros Hu. rewrite (toggle_www_add u Hu). apply toggle_www_strip. Qed.

Lemma HasPrefix_www_www (r : string) :
  Go.HasPrefix ("www." +:+ r) "www.www." = Go.HasPrefix r "www.".
Proof. reflexivity. Qed.

Lemma app_www_neq (r : string) : "www." +:+ r ≠ Go.slice_from 4 r.
Proof.
  change ("www." +:+ r) with (String "w" (String "w" (String "w" (String "." r)))).
  intros Heq. apply (f_equal String.length) in Heq.
  assert (Hlen : ∀ n s, (String.length (Go.slice_from n s) ≤ String.length s)%nat).
  { induction n as [|n IH]; intros [|c s]; simpl; try lia.
    specialize (IH s). lia. }
  specialize (Hlen 4%nat r). cbn [String.length] in Heq. lia.
Qed.

Lemma HasPrefix_www_www_false (t : string) :
  Go.HasPrefix t "www." = false → Go.HasPrefix t "www.www." = false.
Proof.
  destruct t as [|c1 [|c2 [|c3 [|c4 r]]]]; cbn [Go.HasPrefix];
    rewrite ?andb_false_r; try reflexivity.
  rewrite andb_true_r.
  destruct (Ascii.eqb "w" c1), (Ascii.eqb "w" c2), (Ascii.eqb "w" c3),
    (Ascii.eqb "." c4); cbn [andb]; congruence.
Qed.

(** C4, as the spec states it, fails: toggling "www.www.a.com" twice strips
    two prefixes and yields "a.com". *)
Lemma toggle_www_twice_counterexample :
  toggle_www (toggle_www "www.www.a.com") = "a.com" ∧
  toggle_www (toggle_www "www.www.a.com") ≠ "www.www.a.com".
Proof. split; [reflexivity | discriminate]. Qed.

(** C4 (amended): toggling the "www." prefix twice gives the target back
    exactly when the target does not start with "www.www."; so the toggle
    is an involution on all targets with at most one leading "www.". *)
Theorem toggle_www_twice (t : string) :
  toggle_www (toggle_www t) = t ↔ Go.HasPrefix t "www.www." = false.
Proof.
  destruct (Go.HasPrefix t "www.") eqn:Ht.
  - rewrite (HasPrefix_www_inv t Ht).
    set (r := Go.slice_from 4 t).
    rewrite toggle_www_strip, HasPrefix_www_www.
    destruct (Go.HasPrefix r "www.") eqn:Hr.
    + split; [|discriminate]. unfold toggle_www. rewrite Hr.
      intros Heq. exfalso. exact (app_www_neq r (eq_sym Heq)).
    + split; [reflexivity|]. intros _. apply toggle_www_add, Hr.
  - split; intros _.
    + apply HasPrefix_www_www_false, Ht.
    + apply toggle_www_twice_add, Ht.
Qed.

(** ** Result intake *)

Lemma register_work (id : string) (st : state) : work (register id st) = work st.
Proof. unfold register. destruct (workers st !! id); reflexivity. Qed.

Lemma register_done (id : string) (st : state) : done (register id st) = done st.
Proof. unfold register. destruct (workers st !! id); reflexivity. Qed.

Lemma register_files (id : string) (st : state) : files (register id st) = files st.
Proof. unfold register. destruct (workers st !! id); reflexivity. Qed.

Lemma register_workers (id : string) (st : state) :
  workers (register id st) !! id = Some id ∨
  (∃ x, workers st !! id = Some x ∧ register id st = st).
Proof.
  unfold register. destruct (workers st !! id) as [x|] eqn:Hw.
  - right. eauto.
  - left. cbn. apply lookup_insert_eq.
Qed.

Lemma find_work_done fl n st : done (find_work fl n st).1 = done st.
Proof. unfold find_work. destruct (range_first n (work st)) as [[k it]|]; reflexivity. Qed.

Lemma find_work_files fl n st : files (find_work fl n st).1 = files st.
Proof. unfold find_work. destruct (range_first n (work st)) as [[k it]|]; reflexivity. Qed.

Lemma find_work_workers fl n st : workers (find_work fl n st).1 = workers st.
Proof. unfold find_work. destruct (range_first n (work st)) as [[k it]|]; reflexivity. Qed.

Lemma len_pos_nonempty (d : list byte) : (0 < Go.len d)%Z ↔ d ≠ [].
Proof.
  unfold Go.len. destruct d; cbn [length]; split; try congruence; try lia.
Qed.

(** C2: a result with a non-empty id and data shorter than the minimum is
    put back: after the intake the map [work] holds, under the reported id
    and whatever it held there before, an item with that id whose URL is
    the reported URL without its leading "www." if it had one and with
    "www." in front otherwise; [done] and the files are as they were, also
    when the call returns; the call then goes on to find work. *)
Theorem short_data_puts_work_back (fl : flags) (e : env) (st : state)
    (req : pb.Req) (b : pb.Browse) :
  pb.Req_Browse req = Some b →
  pb.ID b ≠ "" →
  (Go.len (pb.Data b) < minDataLen fl)%Z →
  let st0 := register (pb.WorkerID req) st in
  let retry := {| ID := pb.ID b; URL := toggle_www (pb.URL b) |} in
  let st1 := set_work <[pb.ID b := retry]> st0 in
  completed fl (write e) st0 b = (st1, None) ∧
  work st1 = <[pb.ID b := retry]> (work st) ∧
  work st1 !! pb.ID b = Some retry ∧
  (∀ r, pb.URL b = "www." +:+ r → URL retry = r) ∧
  (Go.HasPrefix (pb.URL b) "www." = false → URL retry = "www." +:+ pb.URL b) ∧
  done st1 = done st ∧ files st1 = files st ∧
  Work fl e st req = ((find_work fl (first e) st1).1,
                      Reply (find_work fl (first e) st1).2) ∧
  done (Work fl e st req).1 = done st ∧
  files (Work fl e st req).1 = files st.
Proof.
  intros Hb Hid Hshort st0 retry st1.
  assert (Hc : completed fl (write e) st0 b = (st1, None)).
  { unfold completed. rewrite decide_True by done.
    rewrite decide_False by lia. reflexivity. }
  assert (Hw : Work fl e st req
               = ((find_work fl (first e) st1).1,
                  Reply (find_work fl (first e) st1).2)).
  { unfold Work. rewrite Hb. fold st0. rewrite Hc.
    destruct (find_work fl (first e) st1); reflexivity. }
  assert (Hwork : work st1 = <[pb.ID b := retry]> (work st)).
  { subst st1 st0. cbn. by rewrite register_work. }
  split_and!; try done.
  - rewrite Hwork. apply lookup_insert_eq.
  - intros r Hr. cbn. rewrite Hr. apply toggle_www_strip.
  - intros Hp. cbn. by apply toggle_www_add.
  - subst st1 st0. cbn. apply register_done.
  - subst st1 st0. cbn. apply register_files.
  - rewrite Hw. cbn [fst]. rewrite find_work_done. subst st1 st0. cbn.
    apply register_done.
  - rewrite Hw. cbn [fst]. rewrite find_work_files. subst st1 st0. cbn.
    apply register_files.
Qed.

Lemma short_data_puts_work_back_witness :
  let b := {| pb.ID := "a-0"; pb.URL := "a.com"; pb.Timeout := 15;
              pb.Data := []; pb.AllTraffic := false |} in
  let req := {| pb.WorkerID := "w1"; pb.Req_Browse := Some b |} in
  let st := {| work := ∅; workers := ∅; done := 0; files := ∅ |} in
  work (set_work <[pb.ID b := {| ID := pb.ID b; URL := toggle_www (pb.URL b) |}]>
          (register (pb.WorkerID req) st)) !! "a-0"
  = Some {| ID := "a-0"; URL := "www.a.com" |}.
Proof.
  intros b req st.
  exact (proj1 (proj2 (proj2
    (short_data_puts_work_back default_flags {| first := 0; write := WriteOk |}
       st req b eq_refl ltac:(discriminate) ltac:(reflexivity))))).
Defined.

(** C1: a result with a non-empty id and data of at least the minimum
    length, whose store succeeds (the write succeeds, or there is nothing
    to write), is taken in as follows: the data is written to the file
    named after the id exactly when it is not empty (empty data leaves the
    files as they are), [done] grows by one in both cases, and the id is
    deleted from the map [work], which changes the map only if the id was
    still there.  The call then goes on to find work, which leaves [done]
    and the files alone. *)
Theorem long_data_is_stored (fl : flags) (e : env) (st : state)
    (req : pb.Req) (b : pb.Browse) :
  pb.Req_Browse req = Some b →
  pb.ID b ≠ "" →
  (minDataLen fl ≤ Go.len (pb.Data b))%Z →
  pb.Data b = [] ∨ write e = WriteOk →
  (Go.int_min ≤ done st < Go.int_max)%Z →
  let st0 := register (pb.WorkerID req) st in
  let name := outputFileName fl (pb.ID b) in
  let st1 :=
    {| work := delete (pb.ID b) (work st);
       workers := workers st0;
       done := (done st + 1)%Z;
       files := if decide (pb.Data b = []) then files st
                else <[name := pb.Data b]> (files st) |} in
  completed fl (write e) st0 b = (st1, None) ∧
  (pb.Data b ≠ [] → files st1 !! name = Some (pb.Data b)) ∧
  (pb.Data b = [] → files st1 = files st) ∧
  work st1 !! pb.ID b = None ∧
  (work st !! pb.ID b = None → work st1 = work st) ∧
  Work fl e st req = ((find_work fl (first e) st1).1,
                      Reply (find_work fl (first e) st1).2) ∧
  done (Work fl e st req).1 = (done st + 1)%Z ∧
  files (Work fl e st req).1 = files st1.
Proof.
  intros Hb Hid Hlong Hok Hdone st0 name st1.
  assert (Hc : completed fl (write e) st0 b = (st1, None)).
  { pose proof (register_work (pb.WorkerID req) st) as Hwk.
    pose proof (register_done (pb.WorkerID req) st) as Hdn.
    pose proof (register_files (pb.WorkerID req) st) as Hfl.
    fold st0 in Hwk, Hdn, Hfl.
    unfold completed. rewrite decide_True by done.
    rewrite decide_True by done. unfold store.
    destruct (decide (0 < Go.len (pb.Data b))%Z) as [Hpos|Hzero].
    - apply len_pos_nonempty in Hpos.
      destruct Hok as [Hnil|Hw]; [done|]. rewrite Hw.
      unfold set_work, set_done, set_files; cbn [work workers done files].
      rewrite Hwk, Hdn, Hfl, incr_succ by lia.
      subst st1 name. rewrite decide_False by done.
      destruct (work st !! pb.ID b) eqn:Hl; [reflexivity|].
      rewrite (delete_id _ _ Hl). reflexivity.
    - assert (Hnil : pb.Data b = []).
      { destruct (pb.Data b) eqn:Hd; [done|]. exfalso. apply Hzero.
        unfold Go.len. cbn [length]. lia. }
      unfold set_work, set_done; cbn [work workers done files].
      rewrite Hwk, Hdn, Hfl, incr_succ by lia.
      subst st1 name. rewrite decide_True by done.
      destruct (work st !! pb.ID b) eqn:Hl; [reflexivity|].
      rewrite (delete_id _ _ Hl). reflexivity. }
  assert (Hw : Work fl e st req
               = ((find_work fl (first e) st1).1,
                  Reply (find_work fl (first e) st1).2)).
  { unfold Work. rewrite Hb. fold st0. rewrite Hc.
    destruct (find_work fl (first e) st1); reflexivity. }
  split_and!; try done.
  - intros Hne. cbn. rewrite decide_False by done. apply lookup_insert_eq.
  - intros Hnil. cbn. by rewrite decide_True.
  - cbn. apply lookup_delete_eq.
  - intros Hl. cbn. by apply delete_id.
  - rewrite Hw. cbn [fst]. by rewrite find_work_done.
  - rewrite Hw. cbn [fst]. by rewrite find_work_files.
Qed.

Lemma long_data_is_stored_witness :
  let b := {| pb.ID := "a-0"; pb.URL := "a.com"; pb.Timeout := 15;
              pb.Data := []; pb.AllTraffic := false |} in
  let req := {| pb.WorkerID := "w1"; pb.Req_Browse := Some b |} in
  let st := {| work := ∅; workers := ∅; done := 0; files := ∅ |} in
  let fl := {| timeout := 15; samples := 1; datadir := "data"; scheme := "http";
               alltraffic := false; minDataLen := 0; outputSuffix := ".pcap" |} in
  done (Work fl {| first := 0; write := WriteOk |} st req).1 = 1%Z.
Proof.
  intros b req st fl.
  refine (proj1 (proj2 (proj2 (proj2 (proj2 (proj2 (proj2
    (long_data_is_stored fl {| first := 0; write := WriteOk |} st req b
       eq_refl _ _ _ _)))))))).
  - discriminate.
  - vm_compute. discriminate.
  - left. reflexivity.
  - split; vm_compute; [discriminate | reflexivity].
Defined.

(** C6: when the write of an accepted result fails, [Work] returns the
    error of the write and nothing else happens in the call: [done] is not
    incremented, the map [work] is the one from before the call (the id is
    not deleted, nothing is put back, no item is handed out), and the
    registry is the one the first step of the call left. *)
Theorem failed_write_ends_the_call (fl : flags) (e : env) (st : state)
    (req : pb.Req) (b : pb.Browse) (err : error) (left : option (list byte)) :
  pb.Req_Browse req = Some b →
  pb.ID b ≠ "" →
  (minDataLen fl ≤ Go.len (pb.Data b))%Z →
  pb.Data b ≠ [] →
  write e = WriteErr err left →
  ∃ st', Work fl e st req = (st', Error err) ∧
         done st' = done st ∧
         work st' = work st ∧
         workers st' = workers (register (pb.WorkerID req) st).
Proof.
  intros Hb Hid Hlong Hne Hw.
  apply len_pos_nonempty in Hne.
  unfold Work. rewrite Hb. unfold completed.
  rewrite decide_True by done. rewrite decide_True by done.
  unfold store. rewrite decide_True by done. rewrite Hw.
  destruct left as [bs|]; eexists; (split; [reflexivity|]); cbn;
    rewrite ?register_done, ?register_work; done.
Qed.

Lemma failed_write_ends_the_call_witness :
  let b := {| pb.ID := "a-0"; pb.URL := "a.com"; pb.Timeout := 15;
              pb.Data := ["x"%byte]; pb.AllTraffic := false |} in
  let req := {| pb.WorkerID := "w1"; pb.Req_Browse := Some b |} in
  let st := {| work := ∅; workers := ∅; done := 0; files := ∅ |} in
  let fl := {| timeout := 15; samples := 1; datadir := "data"; scheme := "http";
               alltraffic := false; minDataLen := 1; outputSuffix := ".pcap" |} in
  ∃ st', Work fl {| first := 0; write := WriteErr "no space left on device" None |}
           st req = (st', Error "no space left on device") ∧
         done st' = done st ∧ work st' = work st ∧
         workers st' = workers (register (pb.WorkerID req) st).
Proof.
  intros b req st fl.
  refine (failed_write_ends_the_call fl
            {| first := 0; write := WriteErr "no space left on device" None |}
            st req b "no space left on device" None eq_refl _ _ _ eq_refl).
  - discriminate.
  - vm_compute. discriminate.
  - discriminate.
Defined.

(** ** Finding work *)

(** The model of the map iteration picks an entry of the map, picks none only
    when the map is empty, and can pick every entry. *)
Lemma range_first_Some (n : nat) (m : gmap string item) (k : string) (it : item) :
  range_first n m = Some (k, it) → m !! k = Some it.
Proof.
  unfold range_first. intros Hl.
  apply elem_of_map_to_list. eapply list_elem_of_lookup_2, Hl.
Qed.

Lemma range_first_None (n : nat) (m : gmap string item) :
  range_first n m = None ↔ m = ∅.
Proof.
  unfold range_first. split.
  - intros Hl. apply map_size_empty_iff.
    destruct (decide (size m = 0%nat)) as [|Hne]; [done|exfalso].
    apply lookup_ge_None in Hl. rewrite length_map_to_list in Hl.
    pose proof (Nat.mod_upper_bound n (size m) Hne). lia.
  - intros ->. by rewrite map_to_list_empty.
Qed.

Lemma range_first_any (m : gmap string item) (k : string) (it : item) :
  m !! k = Some it → ∃ n, range_first n m = Some (k, it).
Proof.
  intros Hk. apply elem_of_map_to_list, list_elem_of_lookup_1 in Hk as [n Hn].
  exists n. unfold range_first.
  pose proof (lookup_lt_Some _ _ _ Hn) as Hlt.
  rewrite length_map_to_list in Hlt.
  by rewrite Nat.mod_small.
Qed.

(** The maps [Work] builds keep every item under its own non-empty id. *)
Lemma work_ok_delete (k : string) (m : gmap string item) :
  work_ok m → work_ok (delete k m).
Proof.
  intros Hm k' it Hl. apply lookup_delete_Some in Hl as [_ Hl]. by apply Hm.
Qed.

Lemma work_ok_insert (k : string) (u : string) (m : gmap string item) :
  k ≠ "" → work_ok m → work_ok (<[k := {| ID := k; URL := u |}]> m).
Proof.
  intros Hk Hm k' it Hl. apply lookup_insert_Some in Hl as [[<- <-]|[_ Hl]].
  - done.
  - by apply Hm.
Qed.

Lemma store_work fl w st b : work (store fl w st b).1 = work st.
Proof.
  unfold store. destruct (decide _); [|done].
  destruct w as [|err [bs|]]; done.
Qed.

Lemma completed_work_ok fl w st b :
  work_ok (work st) → work_ok (work (completed fl w st b).1).
Proof.
  intros Hok. unfold completed.
  destruct (decide (pb.ID b ≠ "")) as [Hid|]; [|done].
  destruct (decide (minDataLen fl ≤ Go.len (pb.Data b))%Z).
  - pose proof (store_work fl w st b) as Hs.
    destruct (store fl w st b) as [st1 [err|]]; cbn in *.
    + by rewrite Hs.
    + destruct (work st1 !! pb.ID b); cbn; rewrite Hs;
        [by apply work_ok_delete | done].
  - cbn. by apply work_ok_insert.
Qed.

Lemma find_work_work_ok fl n st :
  work_ok (work st) → work_ok (work (find_work fl n st).1).
Proof.
  intros Hok. unfold find_work.
  destruct (range_first n (work st)) as [[k it]|]; cbn; [|done].
  by apply work_ok_delete.
Qed.

Lemma Work_work_ok fl e st req :
  work_ok (work st) → work_ok (work (Work fl e st req).1).
Proof.
  intros Hok. unfold Work.
  assert (Hreg : work_ok (work (register (pb.WorkerID req) st))).
  { by rewrite register_work. }
  destruct (pb.Req_Browse req) as [b|]; [|done].
  pose proof (completed_work_ok fl (write e) _ b Hreg) as Hc.
  destruct (completed fl (write e) (register (pb.WorkerID req) st) b)
    as [st1 [err|]]; [done|].
  pose proof (find_work_work_ok fl (first e) st1 Hc) as Hf.
  by destruct (find_work fl (first e) st1).
Qed.

(** The intake of a call ends without an error in all cases but a failed
    write. *)
Lemma completed_no_error fl w st b :
  pb.ID b = "" ∨ (Go.len (pb.Data b) < minDataLen fl)%Z ∨ pb.Data b = [] ∨ w = WriteOk →
  (completed fl w st b).2 = None.
Proof.
  intros Hcase. unfold completed.
  destruct (decide (pb.ID b ≠ "")) as [Hid|]; [|done].
  destruct (decide (minDataLen fl ≤ Go.len (pb.Data b))%Z) as [Hlong|]; [|done].
  destruct Hcase as [?|[?|Hcase]]; [done|lia|].
  unfold store. destruct (decide (0 < Go.len (pb.Data b))%Z) as [Hpos|].
  - apply len_pos_nonempty in Hpos. destruct Hcase as [?| ->]; [done|].
    cbn. by destruct (work st !! pb.ID b).
  - cbn. by destruct (work st !! pb.ID b).
Qed.

(** C3: in a call whose result intake ends without an error, with [st1]
    the state the intake leaves, [Work] replies; the reply is the "no work"
    reply, with an empty id and the timeout of the flags, exactly when the
    map [work] of [st1] is empty, and then the state stays [st1]; otherwise
    the reply carries the id and URL of an entry of that map, the timeout
    and the all-traffic flag, and that entry is deleted from the map when
    the call returns. *)
Theorem Work_finds_work (fl : flags) (e : env) (st st1 : state)
    (req : pb.Req) (b : pb.Browse) :
  work_ok (work st) →
  pb.Req_Browse req = Some b →
  completed fl (write e) (register (pb.WorkerID req) st) b = (st1, None) →
  ∃ st2 out,
    Work fl e st req = (st2, Reply out) ∧
    pb.Timeout out = timeout fl ∧
    (pb.ID out = "" ↔ work st1 = ∅) ∧
    (out = no_work fl ↔ work st1 = ∅) ∧
    (work st1 = ∅ → st2 = st1) ∧
    (work st1 ≠ ∅ →
     ∃ k it, work st1 !! k = Some it ∧
             out = {| pb.ID := ID it; pb.URL := URL it;
                      pb.Timeout := timeout fl; pb.Data := [];
                      pb.AllTraffic := alltraffic fl |} ∧
             st2 = set_work (delete k) st1 ∧
             work st2 !! k = None).
Proof.
  intros Hok Hb Hc.
  assert (Hok1 : work_ok (work st1)).
  { assert (Hreg : work_ok (work (register (pb.WorkerID req) st)))
      by (by rewrite register_work).
    pose proof (completed_work_ok fl (write e) _ b Hreg) as H1.
    by rewrite Hc in H1. }
  unfold Work. rewrite Hb, Hc. unfold find_work.
  destruct (range_first (first e) (work st1)) as [[k it]|] eqn:Hr.
  - pose proof (range_first_Some _ _ _ _ Hr) as Hk.
    destruct (Hok1 k it Hk) as [Hid Hne].
    assert (Hnonempty : work st1 ≠ ∅).
    { intros Hempty. rewrite Hempty, lookup_empty in Hk. done. }
    eexists _, _. split; [reflexivity|]. cbn [pb.ID pb.Timeout].
    split_and!; try done.
    + split; [|done]. intros Hempty. congruence.
    + split; [|done]. unfold no_work. intros Heq.
      injection Heq as Heq _. congruence.
    + intros _. exists k, it. split_and!; try done.
      cbn. apply lookup_delete_eq.
  - apply range_first_None in Hr.
    eexists _, _. split; [reflexivity|]. cbn [pb.ID pb.Timeout].
    split_and!; done.
Qed.

Lemma Work_finds_work_witness :
  let it := {| ID := "a-0"; URL := "http://a.com" |} in
  let st := {| work := {[ "a-0" := it ]}; workers := ∅; done := 0; files := ∅ |} in
  let b := no_work default_flags in
  let req := {| pb.WorkerID := "w1"; pb.Req_Browse := Some b |} in
  let e := {| first := 0; write := WriteOk |} in
  ∃ st2 out,
    Work default_flags e st req = (st2, Reply out) ∧
    pb.Timeout out = 15%Z ∧
    (pb.ID out = "" ↔ work (register "w1" st) = ∅) ∧
    (out = no_work default_flags ↔ work (register "w1" st) = ∅) ∧
    (work (register "w1" st) = ∅ → st2 = register "w1" st) ∧
    (work (register "w1" st) ≠ ∅ →
     ∃ k it, work (register "w1" st) !! k = Some it ∧
             out = {| pb.ID := ID it; pb.URL := URL it;
                      pb.Timeout := 15; pb.Data := [];
                      pb.AllTraffic := false |} ∧
             st2 = set_work (delete k) (register "w1" st) ∧
             work st2 !! k = None).
Proof.
  intros it st b req e.
  refine (Work_finds_work default_flags e st (register "w1" st) req b _
            eq_refl eq_refl).
  intros k it' Hl. subst st. cbn in Hl.
  apply lookup_singleton_Some in Hl as [<- <-]. done.
Defined.

(** A request that carries a [Browse] always gets a reply or an error. *)
Lemma Work_returns fl e st req b :
  pb.Req_Browse req = Some b →
  ∃ st', (∃ out, Work fl e st req = (st', Reply out)) ∨
         (∃ err, Work fl e st req = (st', Error err)).
Proof.
  intros Hb. unfold Work. rewrite Hb.
  destruct (completed fl (write e) (register (pb.WorkerID req) st) b)
    as [st1 [err|]].
  - exists st1. right. eauto.
  - destruct (find_work fl (first e) st1) as [st2 out]. exists st2. left. eauto.
Qed.

(** ** A request without a [Browse] *)

(** C10 fails on the code: [Work] reads [in.Browse.ID] without a nil
    check, so a request whose [Browse] is nil makes the call panic right
    after the worker is registered; it is not handled as a first contact.
    A first contact, which carries a [Browse] with an empty id, is
    answered. *)
Theorem Work_nil_Browse_panics (fl : flags) (e : env) (st : state) (w : string) :
  Work fl e st {| pb.WorkerID := w; pb.Req_Browse := None |}
    = (register w st, Panic) ∧
  ∃ st2 out,
    Work fl e st {| pb.WorkerID := w; pb.Req_Browse := Some (no_work fl) |}
      = (st2, Reply out).
Proof.
  split; [reflexivity|].
  unfold Work, completed. cbn [pb.Req_Browse pb.WorkerID].
  rewrite decide_False by (intros Hne; by apply Hne).
  destruct (find_work fl (first e) (register w st)) as [st2 out]. eauto.
Qed.

(** ** Where results are written *)

Lemma range_first_singleton (n : nat) (k : string) (it : item) :
  range_first n {[ k := it ]} = Some (k, it).
Proof.
  unfold range_first. rewrite map_size_singleton, map_to_list_singleton.
  by rewrite Nat.mod_1_r.
Qed.

(** C5 fails on the code: [path.Clean] keeps the ".." elements at the
    start of a relative id, and [path.Join] then lets them cancel the data
    directory.  With the default flags the id "../x" names the file
    "x.pcap", which is not below "data", and a worker that reports 25 bytes
    under this id makes [Work] write them there. *)
Theorem outputFileName_leaves_datadir (n : nat) (st : state) :
  let d := replicate 25 "x"%byte in
  let e := {| first := n; write := WriteOk |} in
  path.Clean "../x" = "../x" ∧
  outputFileName default_flags "../x" = "x.pcap" ∧
  path.below (datadir default_flags) (outputFileName default_flags "../x") = false ∧
  path.below (datadir default_flags) (outputFileName default_flags "a-0") = true ∧
  (store default_flags WriteOk st
     {| pb.ID := "../x"; pb.URL := ""; pb.Timeout := 15; pb.Data := d;
        pb.AllTraffic := false |}).1
    = set_done Go.incr (set_files <["x.pcap" := d]> st) ∧
  files (Work default_flags e st (report default_flags "w1" "../x" "" d)).1
    = <["x.pcap" := d]> (files st).
Proof.
  intros d e. split_and!; try reflexivity.
  unfold Work, report, completed. cbn [pb.Req_Browse pb.WorkerID pb.ID pb.Data].
  rewrite decide_True by done.
  rewrite decide_True by (vm_compute; discriminate).
  unfold store. cbn [pb.Data pb.ID write e].
  rewrite decide_True by (vm_compute; reflexivity).
  change (outputFileName default_flags "../x") with "x.pcap".
  match goal with
  | |- context [match ?m !! "../x" with _ => _ end] => destruct (m !! "../x")
  end.
  - match goal with
    | |- context [find_work ?f ?k ?s] =>
        pose proof (find_work_files f k s) as Hf; destruct (find_work f k s)
    end.
    cbn [fst] in *. rewrite Hf. cbn. by rewrite register_files.
  - match goal with
    | |- context [find_work ?f ?k ?s] =>
        pose proof (find_work_files f k s) as Hf; destruct (find_work f k s)
    end.
    cbn [fst] in *. rewrite Hf. cbn. by rewrite register_files.
Qed.

(** ** The run with one row *)

Lemma one_row_main :
  main one_row_flags ∅ one_row_pages
  = Some {| work := {[ "a-0" := {| ID := "a-0"; URL := "http://a.com" |} ]};
            workers := ∅; done := 0; files := ∅ |}.
Proof. vm_compute. reflexivity. Qed.

(** C9, as the spec states it, fails: with the flags at their defaults the
    page "a.com" gets the scheme "http" when the work is created, so the
    first reply carries the URL "http://a.com", not "a.com". *)
Lemma one_row_first_reply_counterexample :
  ∃ st0 st1 out,
    main one_row_flags ∅ one_row_pages = Some st0 ∧
    Work one_row_flags {| first := 0; write := WriteOk |} st0
      (report one_row_flags "w1" "" "" []) = (st1, Reply out) ∧
    pb.ID out = "a-0" ∧ pb.URL out = "http://a.com" ∧ pb.URL out ≠ "a.com".
Proof.
  eexists _, _, _. split; [apply one_row_main|].
  split; [vm_compute; reflexivity|].
  split_and!; [reflexivity | reflexivity | discriminate].
Qed.

Lemma Work_reply_eq fl e st req b st1 :
  pb.Req_Browse req = Some b →
  completed fl (write e) (register (pb.WorkerID req) st) b = (st1, None) →
  Work fl e st req
  = ((find_work fl (first e) st1).1, Reply (find_work fl (first e) st1).2).
Proof.
  intros Hb Hc. unfold Work. rewrite Hb, Hc.
  by destruct (find_work fl (first e) st1).
Qed.

Lemma find_work_singleton fl n st k it :
  work st = {[ k := it ]} →
  find_work fl n st
  = ({| work := ∅; workers := workers st; done := done st; files := files st |},
     {| pb.ID := ID it; pb.URL := URL it; pb.Timeout := timeout fl;
        pb.Data := []; pb.AllTraffic := alltraffic fl |}).
Proof.
  intros Hw. unfold find_work. rewrite Hw, range_first_singleton.
  unfold set_work. by rewrite Hw, delete_singleton_eq.
Qed.

Lemma find_work_empty fl n st :
  work st = ∅ → find_work fl n st = (st, no_work fl).
Proof.
  intros Hw. unfold find_work.
  by rewrite (proj2 (range_first_None n (work st)) Hw).
Qed.

(** C9 (amended): one row ("a", "a.com"), one sample, minimum length 10,
    the other flags at their defaults (so the scheme is "http"), and no
    output file yet.  The work created is the one item "a-0" with the URL
    "http://a.com", the page with the scheme of the flags applied.  The
    first call, by "w1" with an empty id, registers "w1" and replies with
    "a-0" and "http://a.com".  A second call reporting "a-0" with a URL [t]
    and 5 bytes is rejected: the map [work] gets "a-0" back with [t]
    toggled, the reply hands it out again, [done] stays 0 and nothing is
    written.  A third call reporting "a-0" with 12 bytes is accepted: the
    file "data/a-0.pcap" holds the bytes, [done] is 1, the map [work] is
    empty and the reply has an empty id.  The first reply carries "a.com"
    itself only when the scheme of the flags is empty, and the toggle of
    "a.com" is "www.a.com". *)
Theorem one_row_run (n1 n2 n3 : nat) (w1 w2 : write_result) (t t3 : string)
    (d1 d2 : list byte) :
  length d1 = 5%nat →
  length d2 = 12%nat →
  let fl := one_row_flags in
  let st1 := {| work := ∅; workers := {[ "w1" := "w1" ]}; done := 0; files := ∅ |} in
  let st3 := {| work := ∅; workers := {[ "w1" := "w1" ]}; done := 1;
                files := {[ "data/a-0.pcap" := d2 ]} |} in
  ∃ st0,
    main fl ∅ one_row_pages = Some st0 ∧
    work st0 = {[ "a-0" := {| ID := "a-0"; URL := "http://a.com" |} ]} ∧
    workers st0 = ∅ ∧ done st0 = 0%Z ∧
    Work fl {| first := n1; write := w1 |} st0 (report fl "w1" "" "" [])
      = (st1, Reply {| pb.ID := "a-0"; pb.URL := "http://a.com";
                       pb.Timeout := 15; pb.Data := [];
                       pb.AllTraffic := false |}) ∧
    work (completed fl w2 st1
            {| pb.ID := "a-0"; pb.URL := t; pb.Timeout := 15; pb.Data := d1;
               pb.AllTraffic := false |}).1
      = {[ "a-0" := {| ID := "a-0"; URL := toggle_www t |} ]} ∧
    Work fl {| first := n2; write := w2 |} st1 (report fl "w1" "a-0" t d1)
      = (st1, Reply {| pb.ID := "a-0"; pb.URL := toggle_www t;
                       pb.Timeout := 15; pb.Data := [];
                       pb.AllTraffic := false |}) ∧
    Work fl {| first := n3; write := WriteOk |} st1 (report fl "w1" "a-0" t3 d2)
      = (st3, Reply (no_work fl)) ∧
    (work <$> main {| timeout := 15; samples := 1; datadir := "data";
                      scheme := ""; alltraffic := false; minDataLen := 10;
                      outputSuffix := ".pcap" |} ∅ one_row_pages)
      = Some {[ "a-0" := {| ID := "a-0"; URL := "a.com" |} ]} ∧
    toggle_www "a.com" = "www.a.com".
Proof.
  intros Hd1 Hd2 fl st1 st3.
  assert (Hl1 : Go.len d1 = 5%Z) by (unfold Go.len; by rewrite Hd1).
  assert (Hl2 : Go.len d2 = 12%Z) by (unfold Go.len; by rewrite Hd2).
  eexists. split; [apply one_row_main|]. cbn [work workers done].
  split_and!; try reflexivity.
  - unfold completed. cbn [pb.ID pb.Data pb.URL].
    rewrite decide_True by done. rewrite decide_False by (rewrite Hl1; unfold fl; cbn; lia).
    reflexivity.
  - erewrite Work_reply_eq; [|reflexivity|].
    2:{ unfold completed, report. cbn [pb.ID pb.Data pb.URL pb.WorkerID].
        rewrite decide_True by done.
        rewrite decide_False by (rewrite Hl1; unfold fl; cbn; lia). reflexivity. }
    cbn [first]. erewrite find_work_singleton; [|reflexivity]. reflexivity.
  - erewrite Work_reply_eq; [|reflexivity|].
    2:{ unfold completed, report, store.
        cbn [pb.ID pb.Data pb.URL pb.WorkerID write].
        rewrite decide_True by done.
        rewrite decide_True by (rewrite Hl2; unfold fl; cbn; lia).
        rewrite decide_True by (rewrite Hl2; unfold fl; cbn; lia).
        reflexivity. }
    cbn [first]. rewrite find_work_empty by reflexivity. reflexivity.
Qed.

Lemma one_row_run_witness :
  ∃ st0,
    main one_row_flags ∅ one_row_pages = Some st0 ∧
    Work one_row_flags {| first := 0; write := WriteOk |}
      {| work := ∅; workers := {[ "w1" := "w1" ]}; done := 0; files := ∅ |}
      (report one_row_flags "w1" "a-0" "http://a.com" (replicate 12 "x"%byte))
    = ({| work := ∅; workers := {[ "w1" := "w1" ]}; done := 1;
          files := {[ "data/a-0.pcap" := replicate 12 "x"%byte ]} |},
       Reply (no_work one_row_flags)).
Proof.
  destruct (one_row_run 0 0 0 WriteOk WriteOk "http://a.com" "http://a.com"
              (replicate 5 "x"%byte) (replicate 12 "x"%byte)
              eq_refl eq_refl) as (st0 & Hmain & _ & _ & _ & _ & _ & _ & H3 & _).
  exists st0. split; [exact Hmain | exact H3].
Defined.

(** ** The ids of the work *)

Lemma append_nil_l (s : string) : "" +:+ s = s.
Proof. reflexivity. Qed.

Lemma append_cons (c : ascii) (a s : string) :
  String c a +:+ s = String c (a +:+ s).
Proof. reflexivity. Qed.





Lemma work_id_nonempty (name : string) (s : Z) : work_id name s ≠ "".
Proof.
  unfold work_id. destruct name as [|c name]; discriminate.
Qed.

(** ** Conservation of work *)

Lemma remove_one_length_le (id : string) (held : list string) :
  (length (remove_one id held) ≤ length held)%nat.
Proof.
  induction held as [|x held IH]; cbn [remove_one length]; [lia|].
  destruct (decide (x = id)); cbn [length]; lia.
Qed.

Lemma remove_one_length (id : string) (held : list string) :
  id ∈ held → S (length (remove_one id held)) = length held.
Proof.
  induction held as [|x held IH]; intros Hin.
  - by apply elem_of_nil in Hin.
  - cbn [remove_one]. destruct (decide (x = id)) as [|Hne]; [done|].
    apply elem_of_cons in Hin as [->|Hin]; [done|].
    cbn [length]. by rewrite IH.
Qed.

Lemma reported_length_le (id : string) (held : list string) :
  (length (reported id held) ≤ length held)%nat.
Proof.
  unfold reported. destruct (decide (id = "")); [lia|].
  apply remove_one_length_le.
Qed.

Lemma reported_length (id : string) (held : list string) :
  id ≠ "" → id ∈ held → S (length (reported id held)) = length held.
Proof.
  intros Hne Hin. unfold reported. rewrite decide_False by done.
  by apply remove_one_length.
Qed.

Lemma handed_out_length_le (id : string) (held : list string) :
  (length (handed_out id held) ≤ S (length held))%nat.
Proof. unfold handed_out. destruct (decide (id = "")); cbn [length]; lia. Qed.

Lemma size_delete_le (k : string) (m : gmap string item) :
  (size (delete k m) ≤ size m)%nat.
Proof. rewrite map_size_delete. destruct (m !! k); cbn; lia. Qed.

Lemma size_insert_le (k : string) (it : item) (m : gmap string item) :
  (size (<[k := it]> m) ≤ S (size m))%nat.
Proof. rewrite map_size_insert. destruct (m !! k); cbn; lia. Qed.

Lemma size_delete_Some (k : string) (it : item) (m : gmap string item) :
  m !! k = Some it → S (size (delete k m)) = size m.
Proof.
  intros Hk. rewrite <- (insert_delete_id m k it Hk) at 2.
  rewrite map_size_insert_None; [done|]. apply lookup_delete_eq.
Qed.

(** The quantity the server conserves: pending items, completed items and
    items held by workers.  The intake of a result keeps it below any bound
    it was below before. *)
Lemma completed_conserves fl w st b st1 o held (T : Z) :
  completed fl w st b = (st1, o) →
  pb.ID b = "" ∨ pb.ID b ∈ held →
  (Go.int_min ≤ done st)%Z →
  (Z.of_nat (size (work st)) + done st + Z.of_nat (length held) ≤ T)%Z →
  (Go.int_min ≤ done st1)%Z ∧
  (o = None →
   (Z.of_nat (size (work st1)) + done st1
    + Z.of_nat (length (reported (pb.ID b) held)) ≤ T)%Z) ∧
  (o ≠ None → work st1 = work st ∧ done st1 = done st).
Proof.
  intros Hc Hheld Hmin Hsum. unfold completed in Hc.
  pose proof (incr_le_succ (done st) Hmin) as Hi.
  pose proof (incr_range (done st)) as Hr.
  pose proof (size_delete_le (pb.ID b) (work st)) as Hdel.
  pose proof (reported_length_le (pb.ID b) held) as Hle.
  destruct (decide (pb.ID b ≠ "")) as [Hid|Hid].
  - destruct Hheld as [?|Hin]; [done|].
    pose proof (reported_length _ _ Hid Hin) as Hlen.
    destruct (decide (minDataLen fl ≤ Go.len (pb.Data b))%Z).
    + unfold store in Hc.
      destruct (decide (0 < Go.len (pb.Data b))%Z).
      * destruct w as [|err [bs|]]; cbn in Hc.
        -- destruct (work st !! pb.ID b) eqn:Hl;
             injection Hc as <- <-; cbn [work done set_work set_done set_files];
             (split_and!; [lia| intros _; lia | done]).
        -- injection Hc as <- <-. cbn. split_and!; [lia|done|done].
        -- injection Hc as <- <-. split_and!; [lia|done|done].
      * cbn in Hc.
        destruct (work st !! pb.ID b) eqn:Hl;
          injection Hc as <- <-; cbn [work done set_work set_done];
          (split_and!; [lia| intros _; lia | done]).
    + injection Hc as <- <-. cbn [work done set_work].
      pose proof (size_insert_le (pb.ID b)
                    {| ID := pb.ID b; URL := toggle_www (pb.URL b) |} (work st)).
      split_and!; [lia| intros _; lia | done].
  - injection Hc as <- <-. split_and!; [lia| intros _; lia | done].
Qed.

Lemma find_work_conserves fl n st held :
  done (find_work fl n st).1 = done st ∧
  (size (work (find_work fl n st).1)
   + length (handed_out (pb.ID (find_work fl n st).2) held)
   ≤ size (work st) + length held)%nat.
Proof.
  unfold find_work.
  destruct (range_first n (work st)) as [[k it]|] eqn:Hr; cbn.
  - split; [done|]. apply range_first_Some in Hr.
    pose proof (size_delete_Some _ _ _ Hr).
    pose proof (handed_out_length_le (ID it) held). lia.
  - split; [done|]. unfold handed_out. rewrite decide_True by done. lia.
Qed.

Lemma poll_conserves fl x y (T : Z) :
  poll fl x y →
  (Go.int_min ≤ done x.1)%Z →
  (Z.of_nat (size (work x.1)) + done x.1 + Z.of_nat (length x.2) ≤ T)%Z →
  (Go.int_min ≤ done y.1)%Z ∧
  (Z.of_nat (size (work y.1)) + done y.1 + Z.of_nat (length y.2) ≤ T)%Z.
Proof.
  intros Hpoll Hmin Hsum.
  destruct Hpoll as [e st held req b st' out Hb Hheld HW
                    |e st held req b st' err held' Hb Hheld HW Hheld'];
    cbn [fst snd] in *; unfold Work in HW; rewrite Hb in HW;
    destruct (completed fl (write e) (register (pb.WorkerID req) st) b)
      as [st1 o] eqn:Hc;
    (eapply (completed_conserves _ _ _ _ _ _ held T) in Hc as (Hmin1 & Hok & Herr);
      [|done|by rewrite register_done|by rewrite register_work, register_done]).
  - destruct o as [err|]; [done|].
    pose proof (find_work_conserves fl (first e) st1
                  (reported (pb.ID b) held)) as [Hd Hs].
    destruct (find_work fl (first e) st1) as [st2 out2].
    injection HW as <- <-. cbn [fst snd] in *.
    specialize (Hok eq_refl). rewrite Hd. split; [done|]. lia.
  - destruct o as [err'|].
    + injection HW as <- _. destruct (Herr ltac:(done)) as [Hw Hd].
      rewrite register_work in Hw. rewrite register_done in Hd.
      rewrite Hw, Hd. split; [lia|].
      pose proof (reported_length_le (pb.ID b) held).
      destruct Hheld' as [->| ->]; lia.
    + by destruct (find_work fl (first e) st1).
Qed.

Lemma run_conserves fl x y (T : Z) :
  rtc (poll fl) x y →
  (Go.int_min ≤ done x.1)%Z ∧
  (Z.of_nat (size (work x.1)) + done x.1 + Z.of_nat (length x.2) ≤ T)%Z →
  (Go.int_min ≤ done y.1)%Z ∧
  (Z.of_nat (size (work y.1)) + done y.1 + Z.of_nat (length y.2) ≤ T)%Z.
Proof.
  induction 1 as [x|x y z Hxy _ IH]; [done|].
  intros [Hmin Hsum]. apply IH. by eapply poll_conserves.
Qed.

Section startup.
Context `{U : url.Lib}.
Variables (fl : flags) (fs : gmap string (list byte)).

Lemma create_item_bound s w d row w' d' (k : Z) :
  create_item fl fs s (w, d) row = Some (w', d') →
  (Go.int_min ≤ d)%Z →
  (Z.of_nat (size w) + d ≤ k)%Z →
  (Go.int_min ≤ d')%Z ∧ (Z.of_nat (size w') + d' ≤ k + 1)%Z.
Proof.
  unfold create_item. intros Hc Hmin Hsum.
  destruct (page_URL fl row.2) as [u|]; [|done]. cbn [fst snd] in Hc.
  destruct (fs !! outputFileName fl (work_id row.1 s)).
  - injection Hc as <- <-.
    pose proof (incr_le_succ d Hmin). pose proof (incr_range d). lia.
  - injection Hc as <- <-.
    pose proof (size_insert_le (work_id row.1 s)
                  {| ID := work_id row.1 s; URL := u |} w). lia.
Qed.

Lemma pages_loop_bound s pages acc acc' (k : Z) :
  pages_loop fl fs s pages acc = Some acc' →
  (Go.int_min ≤ acc.2)%Z →
  (Z.of_nat (size acc.1) + acc.2 ≤ k)%Z →
  (Go.int_min ≤ acc'.2)%Z ∧
  (Z.of_nat (size acc'.1) + acc'.2 ≤ k + Z.of_nat (length pages))%Z.
Proof.
  revert acc k. induction pages as [|row pages IH]; intros [w d] k Hl Hmin Hsum.
  - injection Hl as <-. cbn [length]. lia.
  - cbn [pages_loop] in Hl.
    destruct (create_item fl fs s (w, d) row) as [[w1 d1]|] eqn:Hc; [|done].
    destruct (create_item_bound _ _ _ _ _ _ k Hc Hmin Hsum) as [Hmin1 Hsum1].
    destruct (IH (w1, d1) (k + 1)%Z Hl Hmin1 Hsum1) as [Hmin2 Hsum2].
    cbn [length]. lia.
Qed.

Lemma samples_loop_bound ss pages acc acc' (k : Z) :
  samples_loop fl fs ss pages acc = Some acc' →
  (Go.int_min ≤ acc.2)%Z →
  (Z.of_nat (size acc.1) + acc.2 ≤ k)%Z →
  (Go.int_min ≤ acc'.2)%Z ∧
  (Z.of_nat (size acc'.1) + acc'.2
   ≤ k + Z.of_nat (length ss) * Z.of_nat (length pages))%Z.
Proof.
  revert acc k. induction ss as [|s ss IH]; intros acc k Hl Hmin Hsum.
  - injection Hl as <-. cbn [length]. lia.
  - cbn [samples_loop] in Hl.
    destruct (pages_loop fl fs s pages acc) as [acc1|] eqn:Hp; [|done].
    destruct (pages_loop_bound _ _ _ _ k Hp Hmin Hsum) as [Hmin1 Hsum1].
    destruct (IH acc1 _ Hl Hmin1 Hsum1) as [Hmin2 Hsum2].
    cbn [length]. lia.
Qed.

Lemma main_bound pages st :
  (0 ≤ samples fl)%Z →
  main fl fs pages = Some st →
  (Go.int_min ≤ done st)%Z ∧
  (Z.of_nat (size (work st)) + done st
   ≤ Z.of_nat (length pages) * samples fl)%Z.
Proof.
  intros Hs Hm. unfold main in Hm.
  destruct (forallb _ pages); [|done].
  destruct (samples_loop fl fs (seqZ 0 (samples fl)) pages (∅, 0%Z))
    as [[w d]|] eqn:Hl; [|done].
  injection Hm as <-. cbn [work done].
  eapply (samples_loop_bound _ _ _ _ 0%Z) in Hl as [Hmin Hsum]; cbn [fst snd].
  - rewrite length_seqZ in Hsum. cbn [fst snd] in *. split; [done|]. lia.
  - unfold Go.int_min. lia.
  - rewrite map_size_empty. lia.
Qed.

(** The work [main] creates sits under its own non-empty ids. *)
Lemma pages_loop_work_ok s pages acc acc' :
  pages_loop fl fs s pages acc = Some acc' →
  work_ok acc.1 → work_ok acc'.1.
Proof.
  revert acc. induction pages as [|row pages IH]; intros acc Hl Hok.
  - by injection Hl as <-.
  - cbn [pages_loop] in Hl.
    destruct (create_item fl fs s acc row) as [acc1|] eqn:Hc; [|done].
    apply (IH acc1 Hl). unfold create_item in Hc.
    destruct (page_URL fl row.2) as [u|]; [|done].
    destruct (fs !! outputFileName fl (work_id row.1 s));
      injection Hc as <-; cbn [fst]; [done|].
    apply work_ok_insert; [apply work_id_nonempty|done].
Qed.

Lemma samples_loop_work_ok ss pages acc acc' :
  samples_loop fl fs ss pages acc = Some acc' →
  work_ok acc.1 → work_ok acc'.1.
Proof.
  revert acc. induction ss as [|s ss IH]; intros acc Hl Hok.
  - by injection Hl as <-.
  - cbn [samples_loop] in Hl.
    destruct (pages_loop fl fs s pages acc) as [acc1|] eqn:Hp; [|done].
    apply (IH acc1 Hl). by eapply pages_loop_work_ok.
Qed.

Lemma main_work_ok pages st :
  main fl fs pages = Some st → work_ok (work st).
Proof.
  unfold main. intros Hm.
  destruct (forallb _ pages); [|done].
  destruct (samples_loop fl fs (seqZ 0 (samples fl)) pages (∅, 0%Z))
    as [[w d]|] eqn:Hl; [|done].
  injection Hm as <-. cbn [work].
  apply samples_loop_work_ok in Hl; [done|].
  intros k it Hk. cbn [fst] in Hk. by rewrite lookup_empty in Hk.
Qed.

(** So does the work in every state the server reaches. *)
Lemma run_work_ok pages st0 st held held0 :
  main fl fs pages = Some st0 →
  rtc (poll fl) (st0, held0) (st, held) →
  work_ok (work st).
Proof.
  intros Hm Hrun. apply main_work_ok in Hm.
  remember (st0, held0) as x eqn:Hx. remember (st, held) as y eqn:Hy.
  revert st0 held0 st held Hx Hy Hm.
  induction Hrun as [x|x y z Hxy _ IH]; intros st0 held0 st held -> Hy Hm.
  - by injection Hy as <- _.
  - destruct y as [st1 held1]. eapply (IH st1 held1); [done|done|].
    inversion Hxy as [e ? ? req b ? out _ _ HW|e ? ? req b ? err ? _ _ HW _];
      subst; pose proof (Work_work_ok fl e st0 req Hm) as Hok;
      by rewrite HW in Hok.
Qed.

(** C8: start from the state [main] leaves, with a non-negative number of
    samples and no id held by a worker, and let workers that keep to the
    protocol call [Work] any number of times (each report carries an empty
    id or an id some worker holds, and gives that id up).  Then the number
    of items in [work], plus [done], plus the number of ids held by workers
    is at most the number of rows times the number of samples. *)
Theorem work_is_conserved (pages : list (string * string)) (st0 st : state)
    (held : list string) :
  (0 ≤ samples fl)%Z →
  main fl fs pages = Some st0 →
  rtc (poll fl) (st0, []) (st, held) →
  (Z.of_nat (size (work st)) + done st + Z.of_nat (length held)
   ≤ Z.of_nat (length pages) * samples fl)%Z.
Proof.
  intros Hs Hm Hrun.
  destruct (main_bound pages st0 Hs Hm) as [Hmin Hsum].
  apply (run_conserves fl (st0, []) (st, held) _ Hrun).
  cbn [fst snd length]. split; [done|lia].
Qed.

End startup.

Lemma work_is_conserved_witness :
  let st0 := {| work := {[ "a-0" := {| ID := "a-0"; URL := "http://a.com" |} ]};
                workers := ∅; done := 0; files := ∅ |} in
  let st1 := {| work := ∅; workers := {[ "w1" := "w1" ]}; done := 0;
                files := ∅ |} in
  (Z.of_nat (size (work st1)) + done st1 + Z.of_nat (length ["a-0"])
   ≤ Z.of_nat (length one_row_pages) * samples one_row_flags)%Z.
Proof.
  intros st0 st1.
  refine (work_is_conserved one_row_flags ∅ one_row_pages st0 st1 ["a-0"]
            _ one_row_main _).
  - vm_compute. discriminate.
  - apply rtc_once.
    exact (poll_reply one_row_flags {| first := 0; write := WriteOk |} st0 []
             (report one_row_flags "w1" "" "" []) _ st1
             {| pb.ID := "a-0"; pb.URL := "http://a.com"; pb.Timeout := 15;
                pb.Data := []; pb.AllTraffic := false |}
             eq_refl (or_introl eq_refl) eq_refl).
Defined.

(** ** The work [main] creates *)

Section create_work.
Context `{U : url.Lib}.
Variables (fl : flags) (fs : gmap string (list byte)).

Lemma page_URL_is_Some (raw : string) :
  is_Some (page_URL fl raw) ↔ is_Some (url.Parse raw).
Proof.
  unfold page_URL. destruct (url.Parse raw); split; intros [x Hx]; eauto; done.
Qed.

Lemma run_items_app its1 its2 acc :
  run_items fl fs (its1 ++ its2) acc
  = match run_items fl fs its1 acc with
    | None => None
    | Some acc' => run_items fl fs its2 acc'
    end.
Proof.
  revert acc. induction its1 as [|it its1 IH]; intros acc; [done|].
  cbn [app run_items]. destruct (create_item fl fs it.1 acc it.2); [apply IH|done].
Qed.

Lemma pages_loop_run_items s pages acc :
  pages_loop fl fs s pages acc
  = run_items fl fs ((λ row, (s, row)) <$> pages) acc.
Proof.
  revert acc. induction pages as [|row pages IH]; intros acc; [done|].
  cbn [pages_loop fmap list_fmap run_items fst snd].
  destruct (create_item fl fs s acc row); [apply IH|done].
Qed.

Lemma iterations_cons s ss pages :
  iterations (s :: ss) pages
  = ((λ row, (s, row)) <$> pages) ++ iterations ss pages.
Proof. reflexivity. Qed.

(** The two nested loops run the loop body over [iterations]. *)
Lemma samples_loop_run_items ss pages acc :
  samples_loop fl fs ss pages acc
  = run_items fl fs (iterations ss pages) acc.
Proof.
  revert acc. induction ss as [|s ss IH]; intros acc; [done|].
  rewrite iterations_cons, run_items_app. cbn [samples_loop].
  rewrite pages_loop_run_items.
  destruct (run_items fl fs ((λ row, (s, row)) <$> pages) acc); [apply IH|done].
Qed.

Lemma elem_of_iterations ss pages s row :
  (s, row) ∈ iterations ss pages ↔ s ∈ ss ∧ row ∈ pages.
Proof.
  unfold iterations. rewrite list_elem_of_bind. split.
  - intros (s' & Hin & Hs). apply list_elem_of_fmap in Hin as (row' & Heq & Hrow).
    injection Heq as -> ->. done.
  - intros [Hs Hrow]. exists s. split; [|done].
    apply list_elem_of_fmap. eauto.
Qed.

(** What the loop body has done after the rounds [its], started on no work
    and a zero count: [done] is the wrapped number of rounds that found
    their file, and an id holds the item of the last round that inserted
    under it. *)
Lemma run_items_spec its :
  Forall (λ it, is_Some (url.Parse it.2.2)) its →
  ∃ w d,
    run_items fl fs its (∅, 0%Z) = Some (w, d) ∧
    d = Go.wrap (Z.of_nat (length (filter (finds fl fs) its))) ∧
    ∀ id, w !! id = last (filter (inserts fl fs id) its) ≫= item_of fl id.
Proof.
  induction its as [|[s row] its IH] using rev_ind; intros Hparse.
  - exists ∅, 0%Z. split_and!; [done|done|]. intros id. by rewrite lookup_empty.
  - apply Forall_app in Hparse as [Hparse Hrow].
    apply Forall_inv in Hrow. cbn [fst snd] in Hrow.
    destruct (IH Hparse) as (w & d & Hrun & Hd & Hw).
    rewrite run_items_app, Hrun. cbn [run_items fst snd].
    apply page_URL_is_Some in Hrow as [u Hu].
    unfold create_item. rewrite Hu. cbn [fst snd].
    destruct (fs !! outputFileName fl (work_id row.1 s)) as [bs|] eqn:Hfile.
    + eexists _, _. split; [reflexivity|]. split.
      * rewrite filter_app, filter_cons_True by (unfold finds; cbn; by rewrite Hfile).
        rewrite length_app. cbn [filter length]. rewrite filter_nil. cbn [length].
        rewrite Hd. unfold Go.incr. rewrite wrap_wrap_succ. f_equal. lia.
      * intros id. rewrite Hw, filter_app, filter_cons_False.
        -- by rewrite filter_nil, app_nil_r.
        -- unfold inserts. cbn [fst snd]. intros [<- Hnone]. congruence.
    + eexists _, _. split; [reflexivity|]. split.
      * rewrite filter_app, filter_cons_False
          by (unfold finds; cbn; rewrite Hfile; by intros [? ?]).
        by rewrite filter_nil, app_nil_r.
      * intros id. rewrite filter_app.
        destruct (decide (work_id row.1 s = id)) as [<-|Hne].
        -- rewrite lookup_insert_eq.
           rewrite filter_cons_True by (unfold inserts; cbn; done).
           rewrite filter_nil, last_snoc. cbn. unfold item_of. cbn [snd].
           by rewrite Hu.
        -- rewrite lookup_insert_ne by done.
           rewrite filter_cons_False by (unfold inserts; cbn; by intros [? _]).
           by rewrite filter_nil, app_nil_r.
Qed.








End create_work.


(** * Further properties of the server *)

(** ** The registry and the files *)

Lemma store_workers fl w st b : workers (store fl w st b).1 = workers st.
Proof.
  unfold store. destruct (decide _); [|done].
  destruct w as [|err [bs|]]; done.
Qed.

Lemma completed_workers fl w st b : workers (completed fl w st b).1 = workers st.
Proof.
  unfold completed.
  destruct (decide (pb.ID b ≠ "")); [|done].
  destruct (decide (minDataLen fl ≤ Go.len (pb.Data b))%Z); [|done].
  pose proof (store_workers fl w st b) as Hs.
  destruct (store fl w st b) as [st1 [err|]]; cbn in *; [done|].
  by destruct (work st1 !! pb.ID b).
Qed.

Lemma Work_workers fl e st req :
  workers (Work fl e st req).1 = workers (register (pb.WorkerID req) st).
Proof.
  unfold Work. destruct (pb.Req_Browse req) as [b|]; [|done].
  pose proof (completed_workers fl (write e) (register (pb.WorkerID req) st) b)
    as Hc.
  destruct (completed fl (write e) (register (pb.WorkerID req) st) b)
    as [st1 [err|]]; cbn in *; [done|].
  pose proof (find_work_workers fl (first e) st1) as Hf.
  destruct (find_work fl (first e) st1) as [st2 out]. cbn in *. congruence.
Qed.

(** Every call of [Work], whatever it returns, leaves the caller in the
    registry and keeps every worker registered before; the only entry a
    call can add is the caller under its own id, so the registry grows by
    at most one. *)
Theorem Work_keeps_registry (fl : flags) (e : env) (st : state) (req : pb.Req) :
  let st' := (Work fl e st req).1 in
  is_Some (workers st' !! pb.WorkerID req) ∧
  (∀ w x, workers st !! w = Some x → workers st' !! w = Some x) ∧
  (∀ w x, workers st' !! w = Some x →
          workers st !! w = Some x ∨
          (w = pb.WorkerID req ∧ x = w ∧ workers st !! w = None)) ∧
  (size (workers st) ≤ size (workers st') ≤ S (size (workers st)))%nat.
Proof.
  cbn zeta. rewrite Work_workers. unfold register.
  destruct (workers st !! pb.WorkerID req) as [x0|] eqn:Hw.
  - split_and!; eauto; lia.
  - cbn [workers set_workers]. split_and!.
    + rewrite lookup_insert_eq. eauto.
    + intros w x Hl. rewrite lookup_insert_ne; [done|]. congruence.
    + intros w x Hl. apply lookup_insert_Some in Hl as [[<- <-]|[_ Hl]]; eauto.
    + rewrite map_size_insert_None by done. lia.
    + rewrite map_size_insert_None by done. lia.
Qed.

Lemma store_files_other fl w st b p :
  p ≠ outputFileName fl (pb.ID b) →
  files (store fl w st b).1 !! p = files st !! p.
Proof.
  intros Hp. unfold store. destruct (decide _); [|reflexivity].
  destruct w as [|err [bs|]]; cbn; [| |reflexivity]; by rewrite lookup_insert_ne.
Qed.

Lemma store_files_keep fl w st b p :
  is_Some (files st !! p) → is_Some (files (store fl w st b).1 !! p).
Proof.
  intros Hp. unfold store. destruct (decide _); [|exact Hp].
  destruct w as [|err [bs|]]; cbn; [| |exact Hp];
    (destruct (decide (outputFileName fl (pb.ID b) = p)) as [->|Hne];
     [rewrite lookup_insert_eq; eauto | by rewrite lookup_insert_ne]).
Qed.

Lemma completed_files fl w st b :
  files (completed fl w st b).1
  = if decide (pb.ID b ≠ "" ∧ (minDataLen fl ≤ Go.len (pb.Data b))%Z)
    then files (store fl w st b).1 else files st.
Proof.
  unfold completed.
  destruct (decide (pb.ID b ≠ "")) as [Hid|Hid].
  - destruct (decide (minDataLen fl ≤ Go.len (pb.Data b))%Z) as [Hl|Hl].
    + rewrite decide_True by done.
      destruct (store fl w st b) as [st1 [err|]]; cbn; [done|].
      by destruct (work st1 !! pb.ID b).
    + rewrite decide_False by (by intros [_ ?]). done.
  - rewrite decide_False by (by intros [? _]). done.
Qed.

Lemma Work_files fl e st req b :
  pb.Req_Browse req = Some b →
  files (Work fl e st req).1
  = files (completed fl (write e) (register (pb.WorkerID req) st) b).1.
Proof.
  intros Hb. unfold Work. rewrite Hb.
  destruct (completed fl (write e) (register (pb.WorkerID req) st) b)
    as [st1 [err|]]; cbn; [done|].
  pose proof (find_work_files fl (first e) st1) as Hf.
  by destruct (find_work fl (first e) st1).
Qed.

(** A call of [Work] touches at most the file named after the reported id:
    every other file is as before, no file disappears, and nothing at all
    is written for an empty id, for data shorter than the minimum, or for
    empty data.  This holds for replies and errors alike. *)
Theorem Work_writes_one_file (fl : flags) (e : env) (st : state)
    (req : pb.Req) (b : pb.Browse) :
  pb.Req_Browse req = Some b →
  let st' := (Work fl e st req).1 in
  (∀ p, p ≠ outputFileName fl (pb.ID b) → files st' !! p = files st !! p) ∧
  (∀ p, is_Some (files st !! p) → is_Some (files st' !! p)) ∧
  (pb.ID b = "" ∨ (Go.len (pb.Data b) < minDataLen fl)%Z ∨ pb.Data b = [] →
   files st' = files st).
Proof.
  intros Hb. cbn zeta. rewrite (Work_files _ _ _ _ _ Hb), completed_files.
  set (st0 := register (pb.WorkerID req) st).
  assert (Hf0 : files st0 = files st) by apply register_files.
  destruct (decide (pb.ID b ≠ "" ∧ (minDataLen fl ≤ Go.len (pb.Data b))%Z))
    as [[Hid Hlong]|Hno].
  - split_and!.
    + intros p Hp. by rewrite store_files_other, Hf0.
    + intros p Hp. apply store_files_keep. by rewrite Hf0.
    + intros [?|[?|Hnil]]; [done|lia|].
      unfold store. rewrite decide_False; [done|].
      rewrite Hnil. unfold Go.len. cbn. lia.
  - rewrite Hf0. split_and!; done.
Qed.

Lemma Work_writes_one_file_witness :
  let b := {| pb.ID := "a-0"; pb.URL := "a.com"; pb.Timeout := 15;
              pb.Data := replicate 30 "x"%byte; pb.AllTraffic := false |} in
  let req := {| pb.WorkerID := "w1"; pb.Req_Browse := Some b |} in
  let st := {| work := ∅; workers := ∅; done := 0;
               files := {[ "data/b-0.pcap" := [] ]} |} in
  files (Work default_flags {| first := 0; write := WriteOk |} st req).1
    !! "data/b-0.pcap" = Some [].
Proof.
  intros b req st.
  exact (proj1 (Work_writes_one_file default_flags
                  {| first := 0; write := WriteOk |} st req b eq_refl)
           "data/b-0.pcap" ltac:(discriminate)).
Defined.


(** ** No id is handed out twice *)

Lemma remove_one_elem_of (id x : string) (held : list string) :
  x ∈ remove_one id held → x ∈ held.
Proof.
  induction held as [|y held IH]; cbn [remove_one]; [done|].
  destruct (decide (y = id)); rewrite !elem_of_cons; [by right|].
  intros [->|Hin]; [by left|right; by apply IH].
Qed.

Lemma remove_one_NoDup (id : string) (held : list string) :
  NoDup held → NoDup (remove_one id held) ∧ id ∉ remove_one id held.
Proof.
  induction held as [|y held IH]; cbn [remove_one]; intros Hnd.
  - split; [done|]. apply not_elem_of_nil.
  - apply NoDup_cons in Hnd as [Hy Hnd]. destruct (IH Hnd) as [IH1 IH2].
    destruct (decide (y = id)) as [->|Hne]; [done|]. split.
    + apply NoDup_cons. split; [|done].
      intros Hin. by apply remove_one_elem_of in Hin.
    + rewrite elem_of_cons. intros [?|?]; [congruence|done].
Qed.

Lemma Work_Reply_inv fl e st req st' out :
  Work fl e st req = (st', Reply out) →
  ∃ b st1,
    pb.Req_Browse req = Some b ∧
    completed fl (write e) (register (pb.WorkerID req) st) b = (st1, None) ∧
    find_work fl (first e) st1 = (st', out).
Proof.
  unfold Work. destruct (pb.Req_Browse req) as [b|]; [|done].
  destruct (completed fl (write e) (register (pb.WorkerID req) st) b)
    as [st1 [err|]] eqn:Hc; [done|].
  destruct (find_work fl (first e) st1) as [st2 out2] eqn:Hf.
  intros [= <- <-]. eauto.
Qed.

Lemma Work_Error_inv fl e st req st' err :
  Work fl e st req = (st', Error err) →
  ∃ b,
    pb.Req_Browse req = Some b ∧
    completed fl (write e) (register (pb.WorkerID req) st) b = (st', Some err).
Proof.
  unfold Work. destruct (pb.Req_Browse req) as [b|]; [|done].
  destruct (completed fl (write e) (register (pb.WorkerID req) st) b)
    as [st1 [err'|]] eqn:Hc.
  - intros [= <- <-]. eauto.
  - by destruct (find_work fl (first e) st1).
Qed.

Lemma completed_error_work fl w st b st1 err :
  completed fl w st b = (st1, Some err) → work st1 = work st.
Proof.
  unfold completed.
  destruct (decide (pb.ID b ≠ "")); [|done].
  destruct (decide (minDataLen fl ≤ Go.len (pb.Data b))%Z); [|done].
  pose proof (store_work fl w st b) as Hs.
  destruct (store fl w st b) as [st2 [err'|]]; cbn in *.
  - by intros [= <- _].
  - by destruct (work st2 !! pb.ID b).
Qed.

Lemma completed_held_ok fl w st b st1 held :
  completed fl w st b = (st1, None) →
  pb.ID b = "" ∨ pb.ID b ∈ held →
  held_ok st held →
  held_ok st1 (reported (pb.ID b) held).
Proof.
  intros Hc Hheld [Hnd Hout]. unfold completed in Hc. unfold reported.
  destruct (decide (pb.ID b ≠ "")) as [Hid|Hid].
  - rewrite decide_False by done.
    destruct (remove_one_NoDup (pb.ID b) held Hnd) as [Hnd1 Hnotin].
    assert (Hwork : ∀ id, id ≠ pb.ID b → work st !! id = None →
                          work st1 !! id = None).
    { intros id Hne Hl.
      destruct (decide (minDataLen fl ≤ Go.len (pb.Data b))%Z).
      - pose proof (store_work fl w st b) as Hs.
        destruct (store fl w st b) as [st2 [err|]]; [done|]. cbn in Hs.
        destruct (work st2 !! pb.ID b); injection Hc as <-; cbn [work set_work];
          rewrite ?lookup_delete_ne by done; by rewrite Hs.
      - injection Hc as <-. cbn [work set_work].
        by rewrite lookup_insert_ne. }
    split; [done|]. intros id Hin. apply Hwork.
    + intros ->. done.
    + apply Hout. by eapply remove_one_elem_of.
  - rewrite decide_True by (by destruct (decide (pb.ID b = "")); [|destruct Hid]).
    by injection Hc as <-.
Qed.

Lemma find_work_held_ok fl n st held :
  work_ok (work st) →
  held_ok st held →
  held_ok (find_work fl n st).1 (handed_out (pb.ID (find_work fl n st).2) held).
Proof.
  intros Hok [Hnd Hout]. unfold find_work, handed_out.
  destruct (range_first n (work st)) as [[k it]|] eqn:Hr; cbn [fst snd pb.ID].
  - apply range_first_Some in Hr. destruct (Hok k it Hr) as [-> Hne].
    rewrite decide_False by done. split.
    + apply NoDup_cons. split; [|done]. intros Hin.
      specialize (Hout _ Hin). congruence.
    + intros id Hin. cbn [work set_work].
      apply elem_of_cons in Hin as [->|Hin].
      * apply lookup_delete_eq.
      * apply lookup_delete_None. right. by apply Hout.
  - rewrite decide_True by done. done.
Qed.

Lemma handed_out_nonempty (id : string) (held : list string) :
  Forall (λ x, x ≠ "") held → Forall (λ x, x ≠ "") (handed_out id held).
Proof.
  intros Hh. unfold handed_out. destruct (decide (id = "")); [done|].
  by apply Forall_cons.
Qed.

Lemma reported_nonempty (id : string) (held : list string) :
  Forall (λ x, x ≠ "") held → Forall (λ x, x ≠ "") (reported id held).
Proof.
  intros Hh. apply Forall_forall. intros x Hin.
  apply (proj1 (Forall_forall _ _) Hh). unfold reported in Hin.
  destruct (decide (id = "")); [done|]. by eapply remove_one_elem_of.
Qed.

Lemma poll_held_ok fl x y :
  poll fl x y →
  work_ok (work x.1) ∧ held_ok x.1 x.2 ∧ Forall (λ id, id ≠ "") x.2 →
  work_ok (work y.1) ∧ held_ok y.1 y.2 ∧ Forall (λ id, id ≠ "") y.2.
Proof.
  intros Hpoll (Hok & Hheld & Hne).
  destruct Hpoll as [e st held req b st' out Hb Hin HW
                    |e st held req b st' err held' Hb Hin HW Hheld'];
    cbn [fst snd] in *;
    pose proof (Work_work_ok fl e st req Hok) as Hok'; rewrite HW in Hok';
    cbn [fst] in Hok'; (split; [done|]).
  - apply Work_Reply_inv in HW as (b' & st1 & Hb' & Hc & Hf).
    assert (b' = b) as -> by congruence.
    assert (Hreg : held_ok (register (pb.WorkerID req) st) held).
    { destruct Hheld as [Hnd Hout]. split; [done|].
      intros id Hid. rewrite register_work. by apply Hout. }
    pose proof (completed_held_ok _ _ _ _ _ _ Hc Hin Hreg) as H1.
    assert (Hok1 : work_ok (work st1)).
    { pose proof (completed_work_ok fl (write e)
                    (register (pb.WorkerID req) st) b) as H2.
      rewrite Hc in H2. apply H2. by rewrite register_work. }
    pose proof (find_work_held_ok fl (first e) st1 _ Hok1 H1) as H2.
    rewrite Hf in H2. split; [done|].
    by apply handed_out_nonempty, reported_nonempty.
  - apply Work_Error_inv in HW as (b' & Hb' & Hc).
    assert (b' = b) as -> by congruence.
    apply completed_error_work in Hc. rewrite register_work in Hc.
    destruct Hheld as [Hnd Hout].
    destruct Hheld' as [->| ->].
    + split; [|done]. split; [done|]. intros id Hid. rewrite Hc. by apply Hout.
    + split; [|by apply reported_nonempty]. unfold reported.
      destruct (decide (pb.ID b = "")).
      * split; [done|]. intros id Hid. rewrite Hc. by apply Hout.
      * destruct (remove_one_NoDup (pb.ID b) held Hnd) as [Hnd1 _].
        split; [done|]. intros id Hid. rewrite Hc.
        apply Hout. by eapply remove_one_elem_of.
Qed.

Lemma run_held_ok fl x y :
  rtc (poll fl) x y →
  work_ok (work x.1) ∧ held_ok x.1 x.2 ∧ Forall (λ id, id ≠ "") x.2 →
  work_ok (work y.1) ∧ held_ok y.1 y.2 ∧ Forall (λ id, id ≠ "") y.2.
Proof.
  induction 1 as [x|x y z Hxy _ IH]; [done|].
  intros Hx. apply IH. by eapply poll_held_ok.
Qed.

(** In every run of calls by workers that keep to the protocol, started
    from the state [main] leaves, an id is held by at most one worker at a
    time, every held id is non-empty, and no held id is in [work]: an item
    that was handed out cannot be handed out again before it is reported. *)
Theorem held_ids_are_unique `{U : url.Lib} (fl : flags)
    (fs : gmap string (list byte)) (pages : list (string * string))
    (st0 st : state) (held : list string) :
  main fl fs pages = Some st0 →
  rtc (poll fl) (st0, []) (st, held) →
  NoDup held ∧ ∀ id, id ∈ held → id ≠ "" ∧ work st !! id = None.
Proof.
  intros Hm Hrun. apply main_work_ok in Hm.
  destruct (run_held_ok fl _ _ Hrun) as (_ & [Hnd Hout] & Hne).
  { cbn [fst snd]. split_and!; [done| |done].
    split; [apply NoDup_nil_2|]. intros id Hin. by apply elem_of_nil in Hin. }
  cbn [fst snd] in *. split; [done|]. intros id Hin. split; [|by apply Hout].
  by apply (proj1 (Forall_forall _ _) Hne).
Qed.

Lemma held_ids_are_unique_witness :
  let st0 := {| work := {[ "a-0" := {| ID := "a-0"; URL := "http://a.com" |} ]};
                workers := ∅; done := 0; files := ∅ |} in
  let st1 := {| work := ∅; workers := {[ "w1" := "w1" ]}; done := 0;
                files := ∅ |} in
  NoDup ["a-0"] ∧ ∀ id, id ∈ ["a-0"] → id ≠ "" ∧ work st1 !! id = None.
Proof.
  intros st0 st1.
  refine (held_ids_are_unique one_row_flags ∅ one_row_pages st0 st1 ["a-0"]
            one_row_main _).
  apply rtc_once.
  exact (poll_reply one_row_flags {| first := 0; write := WriteOk |} st0 []
           (report one_row_flags "w1" "" "" []) _ st1
           {| pb.ID := "a-0"; pb.URL := "http://a.com"; pb.Timeout := 15;
              pb.Data := []; pb.AllTraffic := false |}
           eq_refl (or_introl eq_refl) eq_refl).
Defined.

(** ** Starting, finishing and starting again *)

Lemma main_Some_iff `{U : url.Lib} fl fs (pages : list (string * string)) :
  is_Some (main fl fs pages) ↔ Forall (λ row, is_Some (url.Parse row.2)) pages.
Proof.
  unfold main.
  destruct (forallb (λ row, bool_decide (is_Some (url.Parse row.2))) pages)
    eqn:Hall.
  - assert (Hparse : Forall (λ row, is_Some (url.Parse row.2)) pages).
    { apply Forall_forall. intros row Hin.
      apply list_elem_of_In in Hin.
      apply (proj1 (forallb_forall _ _) Hall) in Hin.
      by apply bool_decide_eq_true in Hin. }
    split; [done|]. intros _.
    assert (Hits : Forall (λ it : Z * (string * string),
                             is_Some (url.Parse it.2.2))
                     (iterations (seqZ 0 (samples fl)) pages)).
    { apply Forall_forall. intros [s row] Hin.
      apply elem_of_iterations in Hin as [_ Hrow]. cbn [snd].
      by apply (proj1 (Forall_forall _ _) Hparse). }
    destruct (run_items_spec fl fs _ Hits) as (w & d & Hrun & _).
    rewrite samples_loop_run_items, Hrun. eauto.
  - split; [by intros [? ?]|]. intros Hparse. exfalso.
    assert (forallb (λ row, bool_decide (is_Some (url.Parse row.2))) pages
            = true); [|congruence].
    apply forallb_forall. intros row Hin. apply bool_decide_eq_true.
    apply (proj1 (Forall_forall _ _) Hparse). by apply list_elem_of_In.
Qed.


Lemma filter_all {A} (P : A → Prop) `{∀ x, Decision (P x)} (l : list A) :
  Forall P l → filter P l = l.
Proof.
  induction 1 as [|x l Hx _ IH]; [done|].
  rewrite filter_cons_True by done. by rewrite IH.
Qed.

Lemma filter_none {A} (P : A → Prop) `{∀ x, Decision (P x)} (l : list A) :
  Forall (λ x, ¬ P x) l → filter P l = [].
Proof.
  induction 1 as [|x l Hx _ IH]; [done|].
  by rewrite filter_cons_False.
Qed.

Lemma length_iterations (ss : list Z) (pages : list (string * string)) :
  length (iterations ss pages) = (length ss * length pages)%nat.
Proof.
  induction ss as [|s ss IH]; [done|].
  rewrite iterations_cons, length_app, length_fmap, IH. cbn [length]. lia.
Qed.

(** When the output file of every id exists already, [main] creates no
    work and counts every id as done, and the first round of the progress
    function ends the server: a server started again after a complete run
    hands out nothing. *)
Theorem main_all_done `{U : url.Lib} (fl : flags)
    (fs : gmap string (list byte)) (pages : list (string * string)) :
  Forall (λ row, is_Some (url.Parse row.2)) pages →
  (0 ≤ samples fl)%Z →
  (Z.of_nat (length pages) * samples fl ≤ Go.int_max)%Z →
  (∀ s row, (0 ≤ s < samples fl)%Z → row ∈ pages →
            is_Some (fs !! outputFileName fl (work_id row.1 s))) →
  ∃ st,
    main fl fs pages = Some st ∧
    work st = ∅ ∧
    done st = (Z.of_nat (length pages) * samples fl)%Z ∧
    finished fl pages st = true.
Proof.
  intros Hparse Hs Hmax Hfiles.
  set (ss := seqZ 0 (samples fl)).
  assert (Hits : Forall (λ it : Z * (string * string), is_Some (url.Parse it.2.2))
                   (iterations ss pages)).
  { apply Forall_forall. intros [s row] Hin.
    apply elem_of_iterations in Hin as [_ Hrow]. cbn [snd].
    by apply (proj1 (Forall_forall _ _) Hparse). }
  assert (Hfinds : Forall (finds fl fs) (iterations ss pages)).
  { apply Forall_forall. intros [s row] Hin.
    apply elem_of_iterations in Hin as [Hin Hrow].
    apply elem_of_seqZ in Hin. unfold finds. cbn [fst snd].
    apply Hfiles; [lia|done]. }
  destruct (run_items_spec fl fs _ Hits) as (w & d & Hrun & Hd & Hw).
  rewrite (filter_all _ _ Hfinds), length_iterations in Hd.
  unfold ss in Hd. rewrite length_seqZ in Hd.
  assert (Hd' : d = (Z.of_nat (length pages) * samples fl)%Z).
  { rewrite Hd. rewrite wrap_id; [lia|]. unfold Go.int_min. lia. }
  exists {| work := w; workers := ∅; done := d; files := fs |}.
  split_and!; cbn [work done].
  - unfold main.
    assert (Hall : forallb (λ row, bool_decide (is_Some (url.Parse row.2))) pages
                   = true).
    { apply forallb_forall. intros row Hin. apply bool_decide_eq_true.
      apply (proj1 (Forall_forall _ _) Hparse). by apply list_elem_of_In. }
    rewrite Hall, samples_loop_run_items. fold ss. by rewrite Hrun.
  - apply map_empty. intros id. rewrite Hw.
    rewrite filter_none; [done|].
    apply Forall_forall. intros it Hin [Hid Hnone].
    apply (proj1 (Forall_forall _ _) Hfinds) in Hin as [bs Hbs].
    unfold finds in Hbs. rewrite Hid in Hbs. congruence.
  - done.
  - unfold finished, total. cbn [done]. apply bool_decide_eq_true.
    rewrite Hd'. rewrite wrap_id; [done|]. unfold Go.int_min. lia.
Qed.

Lemma main_all_done_witness :
  ∃ st,
    main one_row_flags {[ "data/a-0.pcap" := [] ]} one_row_pages = Some st ∧
    work st = ∅ ∧ done st = 1%Z ∧
    finished one_row_flags one_row_pages st = true.
Proof.
  refine (main_all_done one_row_flags {[ "data/a-0.pcap" := [] ]} one_row_pages
            _ _ _ _).
  - repeat constructor. by eexists.
  - vm_compute. discriminate.
  - vm_compute. discriminate.
  - intros s row Hs Hrow.
    assert (s = 0%Z) as -> by (cbn in Hs; lia).
    apply list_elem_of_singleton in Hrow as ->. by eexists.
Defined.

(** With an empty table, or with zero samples, [main] creates no work,
    [done] stays 0, and the first round of the progress function ends the
    server. *)
Theorem main_nothing_to_do `{U : url.Lib} (fl : flags)
    (fs : gmap string (list byte)) (pages : list (string * string)) :
  Forall (λ row, is_Some (url.Parse row.2)) pages →
  pages = [] ∨ samples fl = 0%Z →
  main fl fs pages
    = Some {| work := ∅; workers := ∅; done := 0; files := fs |} ∧
  finished fl pages {| work := ∅; workers := ∅; done := 0; files := fs |} = true.
Proof.
  intros Hparse Hcase.
  assert (Hits : iterations (seqZ 0 (samples fl)) pages = []).
  { apply length_zero_iff_nil. rewrite length_iterations, length_seqZ.
    destruct Hcase as [->| ->]; cbn [length]; lia. }
  split.
  - unfold main.
    assert (Hall : forallb (λ row, bool_decide (is_Some (url.Parse row.2))) pages
                   = true).
    { apply forallb_forall. intros row Hin. apply bool_decide_eq_true.
      apply (proj1 (Forall_forall _ _) Hparse). by apply list_elem_of_In. }
    by rewrite Hall, samples_loop_run_items, Hits.
  - unfold finished, total. cbn [done]. apply bool_decide_eq_true.
    destruct Hcase as [->| ->]; cbn [length];
      rewrite ?Z.mul_0_l, ?Z.mul_0_r; done.
Qed.

Lemma main_nothing_to_do_witness :
  main one_row_flags ∅ []
    = Some {| work := ∅; workers := ∅; done := 0; files := ∅ |} ∧
  finished one_row_flags [] {| work := ∅; workers := ∅; done := 0; files := ∅ |}
    = true.
Proof.
  exact (main_nothing_to_do one_row_flags ∅ [] (Forall_nil_2 _) (or_introl eq_refl)).
Defined.



Lemma Work_files_keep fl e st req p :
  is_Some (files st !! p) → is_Some (files (Work fl e st req).1 !! p).
Proof.
  intros Hp. destruct (pb.Req_Browse req) as [b|] eqn:Hb.
  - rewrite (Work_files _ _ _ _ _ Hb), completed_files.
    destruct (decide _).
    + apply store_files_keep. by rewrite register_files.
    + by rewrite register_files.
  - unfold Work. rewrite Hb. cbn [fst]. by rewrite register_files.
Qed.

Lemma run_files_keep fl x y p :
  rtc (poll fl) x y → is_Some (files x.1 !! p) → is_Some (files y.1 !! p).
Proof.
  induction 1 as [x|x y z Hxy _ IH]; [done|]. intros Hp. apply IH.
  destruct Hxy as [e st held req b st' out _ _ HW
                  |e st held req b st' err held' _ _ HW _]; cbn [fst] in *;
    pose proof (Work_files_keep fl e st req p Hp) as Hk; by rewrite HW in Hk.
Qed.

Lemma Work_stores_data fl e st req b :
  pb.Req_Browse req = Some b →
  pb.ID b ≠ "" →
  (minDataLen fl ≤ Go.len (pb.Data b))%Z →
  pb.Data b ≠ [] →
  write e = WriteOk →
  files (Work fl e st req).1 !! outputFileName fl (pb.ID b) = Some (pb.Data b).
Proof.
  intros Hb Hid Hlong Hne Hw.
  rewrite (Work_files _ _ _ _ _ Hb), completed_files.
  rewrite decide_True by done. unfold store.
  rewrite decide_True by (by apply len_pos_nonempty). rewrite Hw.
  cbn. apply lookup_insert_eq.
Qed.

Lemma main_skips_existing `{U : url.Lib} fl fs (pages : list (string * string))
    st id :
  main fl fs pages = Some st →
  is_Some (fs !! outputFileName fl id) →
  work st !! id = None.
Proof.
  intros Hm [bs Hbs].
  assert (Hparse : Forall (λ row, is_Some (url.Parse row.2)) pages).
  { apply main_Some_iff with (fl := fl) (fs := fs). eauto. }
  assert (Hits : Forall (λ it : Z * (string * string), is_Some (url.Parse it.2.2))
                   (iterations (seqZ 0 (samples fl)) pages)).
  { apply Forall_forall. intros [s row] Hin.
    apply elem_of_iterations in Hin as [_ Hrow]. cbn [snd].
    by apply (proj1 (Forall_forall _ _) Hparse). }
  destruct (run_items_spec fl fs _ Hits) as (w & d & Hrun & _ & Hw).
  unfold main in Hm. destruct (forallb _ pages); [|done].
  rewrite samples_loop_run_items, Hrun in Hm. injection Hm as <-.
  cbn [work]. rewrite Hw. rewrite filter_none; [done|].
  apply Forall_forall. intros it _ [_ Hnone]. congruence.
Qed.

(** A result that [Work] accepted and wrote is not worked on again after a
    restart: whatever calls follow, when [main] later runs on the files the
    server leaves, it puts no item for the id of that result into [work]. *)
Theorem stored_result_is_not_redone `{U : url.Lib} (fl : flags) (e : env)
    (st st2 st3 : state) (req : pb.Req) (b : pb.Browse)
    (held1 held2 : list string) (pages : list (string * string)) :
  pb.Req_Browse req = Some b →
  pb.ID b ≠ "" →
  (minDataLen fl ≤ Go.len (pb.Data b))%Z →
  pb.Data b ≠ [] →
  write e = WriteOk →
  rtc (poll fl) ((Work fl e st req).1, held1) (st2, held2) →
  main fl (files st2) pages = Some st3 →
  work st3 !! pb.ID b = None.
Proof.
  intros Hb Hid Hlong Hne Hw Hrun Hm.
  apply (main_skips_existing fl (files st2) pages st3 _ Hm).
  apply (run_files_keep fl _ _ _ Hrun). cbn [fst].
  rewrite (Work_stores_data _ _ _ _ _ Hb Hid Hlong Hne Hw). eauto.
Qed.

Lemma stored_result_is_not_redone_witness :
  let st3 := {| work := ∅; workers := ∅; done := 1;
                files := {[ "data/a-0.pcap" := replicate 12 "x"%byte ]} |} in
  work st3 !! "a-0" = None.
Proof.
  intros st3.
  refine (stored_result_is_not_redone one_row_flags
            {| first := 0; write := WriteOk |}
            {| work := ∅; workers := {[ "w1" := "w1" ]}; done := 0; files := ∅ |}
            _ st3
            (report one_row_flags "w1" "a-0" "http://a.com"
               (replicate 12 "x"%byte))
            _ [] [] one_row_pages eq_refl _ _ _ eq_refl (rtc_refl _ _) _).
  - discriminate.
  - vm_compute. discriminate.
  - discriminate.
  - vm_compute. reflexivity.
Defined.

(** ** Where plain ids are stored *)

Lemma append_assoc (a b c : string) : (a +:+ b) +:+ c = a +:+ (b +:+ c).
Proof.
  induction a as [|x a IH]; [done|]. rewrite !append_cons. by rewrite IH.
Qed.

Lemma append_length (a b : string) :
  String.length (a +:+ b) = (String.length a + String.length b)%nat.
Proof.
  induction a as [|x a IH]; [done|]. rewrite append_cons. cbn [String.length].
  by rewrite IH.
Qed.


Lemma append_nil_inv (a b : string) : a +:+ b = "" → a = "" ∧ b = "".
Proof. destruct a; [done|]. rewrite append_cons. discriminate. Qed.

Lemma slashless_app (a b : string) :
  slashless a → slashless b → slashless (a +:+ b).
Proof.
  intros Ha Hb. induction a as [|x a IH]; [done|].
  rewrite append_cons. destruct Ha as [Hx Ha]. split; [done|]. by apply IH.
Qed.

Lemma elements_nonempty (s : string) : ∃ e es, path.elements s = e :: es.
Proof.
  induction s as [|c s (e & es & IH)]; cbn [path.elements]; [eauto|].
  destruct (Ascii.eqb c "/"); [eauto|]. rewrite IH. eauto.
Qed.

Lemma elements_slashless (s : string) : slashless s → path.elements s = [s].
Proof.
  induction s as [|c s IH]; [done|]. intros [Hc Hs].
  cbn [path.elements]. rewrite (proj2 (Ascii.eqb_neq c "/") Hc).
  by rewrite (IH Hs).
Qed.

Lemma elements_app_slash (a b : string) :
  path.elements (a +:+ String "/" b) = path.elements a ++ path.elements b.
Proof.
  induction a as [|c a IH]; [done|].
  rewrite append_cons. cbn [path.elements]. rewrite IH.
  destruct (Ascii.eqb c "/"); [done|].
  by destruct (elements_nonempty a) as (e & es & ->).
Qed.

Lemma slashed_snoc (l : list string) (x : string) :
  l ≠ [] → path.slashed (l ++ [x]) = path.slashed l +:+ String "/" x.
Proof.
  induction l as [|e l IH]; [done|]. intros _.
  destruct l as [|e' l]; [done|].
  change (path.slashed ((e :: e' :: l) ++ [x]))
    with (e +:+ "/" +:+ path.slashed ((e' :: l) ++ [x])).
  rewrite IH by done.
  change (path.slashed (e :: e' :: l)) with (e +:+ "/" +:+ path.slashed (e' :: l)).
  by rewrite !append_assoc.
Qed.

Lemma clean_step_plain (rooted : bool) (out : list string) (e : string) :
  e ≠ "" → e ≠ "." → e ≠ ".." → path.clean_step rooted out e = e :: out.
Proof.
  intros H1 H2 H3. unfold path.clean_step.
  rewrite decide_False by (by intros [?|?]). by rewrite decide_False.
Qed.

Lemma HasPrefix_app (p r : string) : Go.HasPrefix (p +:+ r) p = true.
Proof.
  induction p as [|c p IH]; [done|]. rewrite append_cons.
  cbn [Go.HasPrefix]. by rewrite Ascii.eqb_refl, IH.
Qed.

Lemma Clean_plain (id : string) : plain_id id → path.Clean id = id.
Proof.
  intros (H1 & H2 & H3 & Hs). unfold path.Clean.
  rewrite decide_False by done. rewrite (elements_slashless id Hs).
  cbn [foldl]. rewrite clean_step_plain by done. cbn [rev app path.slashed].
  destruct id as [|c id]; [done|]. destruct Hs as [Hc _].
  cbn [Go.HasPrefix]. rewrite (proj2 (Ascii.eqb_neq "/" c)) by congruence.
  cbn [andb]. by rewrite decide_False.
Qed.

(** Cleaning a directory joined with one plain element appends the
    element to the cleaned directory. *)
Lemma Clean_join_plain (d name : string) :
  plain_id name →
  path.Clean d ≠ "." → path.Clean d ≠ "/" →
  path.Clean (d +:+ String "/" name) = path.Clean d +:+ String "/" name.
Proof.
  intros (H1 & H2 & H3 & Hs) Hdot Hroot.
  assert (Hd : d ≠ "") by (intros ->; by apply Hdot).
  unfold path.Clean in *.
  rewrite decide_False in Hdot, Hroot by done.
  rewrite decide_False by (destruct d; [done|by rewrite append_cons]).
  rewrite (decide_False (P := d = "")) by done.
  assert (Hrooted : Go.HasPrefix (d +:+ String "/" name) "/" = Go.HasPrefix d "/").
  { destruct d as [|c d]; [done|]. by rewrite append_cons. }
  rewrite Hrooted, elements_app_slash, (elements_slashless name Hs).
  rewrite foldl_app. cbn [foldl]. rewrite clean_step_plain by done.
  set (out := foldl (path.clean_step (Go.HasPrefix d "/")) [] (path.elements d))
    in *.
  cbn [rev].
  destruct (decide (rev out = [])) as [Hnil|Hnonnil].
  - rewrite Hnil in *. cbn [path.slashed app] in *.
    destruct (Go.HasPrefix d "/"); [done|].
    by rewrite decide_True in Hdot.
  - rewrite (slashed_snoc _ _ Hnonnil).
    destruct (Go.HasPrefix d "/"); cbv iota in *.
    + by rewrite append_assoc.
    + destruct (decide (path.slashed (rev out) = "")) as [Hempty|Hbody];
        [done|].
      rewrite decide_False; [done|].
      intros Hcontra. by apply append_nil_inv in Hcontra as [_ ?].
Qed.

Lemma plain_id_suffix (id suffix : string) :
  plain_id id → slashless suffix → plain_id (id +:+ suffix).
Proof.
  intros (H1 & H2 & H3 & Hs) Hsuf. split_and!.
  - intros Heq. by apply append_nil_inv in Heq as [? _].
  - destruct id as [|c id]; [done|]. rewrite append_cons. intros [= -> Heq].
    apply append_nil_inv in Heq as [-> _]. done.
  - destruct id as [|c [|c' id]]; [done| |].
    + rewrite append_cons, append_nil_l. intros [= -> ->]. done.
    + rewrite !append_cons. intros [= -> -> Heq].
      apply append_nil_inv in Heq as [-> _]. done.
  - by apply slashless_app.
Qed.

Lemma outputFileName_plain_eq (fl : flags) (id : string) :
  plain_id id →
  slashless (outputSuffix fl) →
  path.Clean (datadir fl) ≠ "." →
  path.Clean (datadir fl) ≠ "/" →
  outputFileName fl id
  = path.Clean (datadir fl) +:+ String "/" (id +:+ outputSuffix fl).
Proof.
  intros Hid Hsuf Hdot Hroot. unfold outputFileName, path.Join.
  rewrite (Clean_plain id Hid).
  pose proof (plain_id_suffix id _ Hid Hsuf) as Hname.
  assert (Hd : datadir fl ≠ "") by (intros Heq; rewrite Heq in Hdot; by apply Hdot).
  rewrite filter_cons_True by done.
  rewrite filter_cons_True by (by destruct Hname).
  rewrite filter_nil.
  change (path.slashed [datadir fl; id +:+ outputSuffix fl])
    with (datadir fl +:+ String "/" (id +:+ outputSuffix fl)).
  by apply Clean_join_plain.
Qed.

(** An id that is one ordinary path element (not empty, not "." or "..",
    without a slash) is stored in the file [id] followed by the suffix,
    directly in the cleaned data directory, when the suffix has no slash
    and the data directory is neither the current directory nor the root. *)
Theorem outputFileName_plain (fl : flags) (id : string) :
  plain_id id →
  slashless (outputSuffix fl) →
  path.Clean (datadir fl) ≠ "." →
  path.Clean (datadir fl) ≠ "/" →
  outputFileName fl id
  = path.Clean (datadir fl) +:+ "/" +:+ id +:+ outputSuffix fl ∧
  path.below (datadir fl) (outputFileName fl id) = true.
Proof.
  intros Hid Hsuf Hdot Hroot.
  rewrite (outputFileName_plain_eq fl id Hid Hsuf Hdot Hroot). split; [done|].
  unfold path.below.
  change (path.Clean (datadir fl) +:+ String "/" (id +:+ outputSuffix fl))
    with (path.Clean (datadir fl) +:+ "/" +:+ (id +:+ outputSuffix fl)).
  rewrite <- append_assoc. apply HasPrefix_app.
Qed.

Lemma outputFileName_plain_witness :
  outputFileName default_flags "a-0" = "data/a-0.pcap" ∧
  path.below "data" (outputFileName default_flags "a-0") = true.
Proof.
  refine (outputFileName_plain default_flags "a-0" _ _ _ _).
  - repeat split; discriminate.
  - repeat split; discriminate.
  - discriminate.
  - discriminate.
Defined.







(** * The server with its clients *)

Lemma remove_one_Permutation (id : string) (l : list string) :
  id ∈ l → l ≡ₚ id :: remove_one id l.
Proof.
  induction l as [|x l IH]; intros Hin.
  - by apply elem_of_nil in Hin.
  - cbn [remove_one]. destruct (decide (x = id)) as [->|Hne]; [done|].
    apply elem_of_cons in Hin as [?|Hin]; [congruence|].
    rewrite (IH Hin) at 1. apply perm_swap.
Qed.

Lemma remove_one_middle (id : string) (l1 l2 l : list string) :
  l ≡ₚ l1 ++ id :: l2 → remove_one id l ≡ₚ l1 ++ l2.
Proof.
  intros Hl. apply (Permutation_cons_inv (a := id)).
  rewrite <- remove_one_Permutation.
  - rewrite Hl. symmetry. apply Permutation_middle.
  - rewrite Hl. apply elem_of_app. right. left.
Qed.

Lemma held_ids_app (l1 l2 : list pb.Req) :
  held_ids (l1 ++ l2) = held_ids l1 ++ held_ids l2.
Proof. unfold held_ids. by rewrite fmap_app, filter_app. Qed.

Lemma held_ids_cons (r : pb.Req) (l : list pb.Req) :
  held_ids (r :: l) = handed_out (reported_id r) (held_ids l).
Proof.
  unfold held_ids, handed_out. cbn [fmap list_fmap].
  destruct (decide (reported_id r = "")) as [Heq|Hne].
  - by rewrite filter_cons_False by (by intros ?).
  - by rewrite filter_cons_True.
Qed.

Lemma handed_out_middle (id : string) (l1 l2 : list string) :
  l1 ++ handed_out id l2 ≡ₚ handed_out id (l1 ++ l2).
Proof.
  unfold handed_out. destruct (decide (id = "")); [done|].
  symmetry. apply Permutation_middle.
Qed.

(** Replacing the request of one client takes its id out of the held ids
    and puts the id of the new request in. *)
Lemma held_ids_insert (clients : list pb.Req) (i : nat) (work r : pb.Req)
    (held : list string) :
  clients !! i = Some work →
  held ≡ₚ held_ids clients →
  held_ids (<[i := r]> clients)
  ≡ₚ handed_out (reported_id r) (reported (reported_id work) held).
Proof.
  intros Hi Hheld.
  rewrite insert_take_drop by (by eapply lookup_lt_Some).
  rewrite <- (take_drop_middle _ _ _ Hi) in Hheld.
  set (l1 := take i clients) in *. set (l2 := drop (S i) clients) in *.
  rewrite held_ids_app, held_ids_cons in *.
  rewrite handed_out_middle.
  assert (Hrest : reported (reported_id work) held ≡ₚ held_ids l1 ++ held_ids l2).
  { unfold reported, handed_out in *.
    destruct (decide (reported_id work = "")); [done|].
    by apply remove_one_middle. }
  unfold handed_out. destruct (decide (reported_id r = "")); by rewrite Hrest.
Qed.

Lemma client_next_reported_id work out pcapData :
  reported_id (client_next work (Reply out) pcapData) = pb.ID out.
Proof.
  unfold client_next, reported_id. by destruct (decide (pb.ID out = "")).
Qed.

Lemma client_next_Browse work res pcapData :
  is_Some (pb.Req_Browse work) →
  is_Some (pb.Req_Browse (client_next work res pcapData)).
Proof.
  intros Hw. unfold client_next. destruct res as [out|err|]; [|done|done].
  destruct (decide (pb.ID out = "")); cbn; eauto.
Qed.

Lemma elem_of_held_ids (clients : list pb.Req) (i : nat) (work : pb.Req) :
  clients !! i = Some work →
  reported_id work = "" ∨ reported_id work ∈ held_ids clients.
Proof.
  intros Hi. destruct (decide (reported_id work = "")) as [|Hne]; [by left|].
  right. unfold held_ids. apply list_elem_of_filter. split; [done|].
  apply list_elem_of_fmap. exists work. split; [done|].
  by eapply list_elem_of_lookup_2.
Qed.

(** One call by a client is one call by a worker that keeps to the
    protocol, up to the order of the held ids. *)
Lemma serve_poll fl st clients st' clients' held :
  serve fl (st, clients) (st', clients') →
  Forall (λ req, is_Some (pb.Req_Browse req)) clients →
  held ≡ₚ held_ids clients →
  Forall (λ req, is_Some (pb.Req_Browse req)) clients' ∧
  ∃ held', held' ≡ₚ held_ids clients' ∧ poll fl (st, held) (st', held').
Proof.
  intros Hstep Hall Hheld.
  inversion Hstep as [e ? ? i work ? res pcapData Hi HW Hres]; subst.
  assert (Hwork : is_Some (pb.Req_Browse work)).
  { apply (proj1 (Forall_forall _ _) Hall). by eapply list_elem_of_lookup_2. }
  split.
  { apply Forall_insert; [done|]. by apply client_next_Browse. }
  destruct Hwork as [b Hb].
  assert (Hid : reported_id work = pb.ID b) by (unfold reported_id; by rewrite Hb).
  assert (Hin : pb.ID b = "" ∨ pb.ID b ∈ held).
  { rewrite <- Hid, Hheld. by eapply elem_of_held_ids. }
  destruct res as [out|err|]; [| |done].
  - exists (handed_out (pb.ID out) (reported (pb.ID b) held)). split.
    + rewrite (held_ids_insert clients i work _ held Hi Hheld).
      by rewrite client_next_reported_id, Hid.
    + by eapply poll_reply.
  - exists held. split.
    + cbn [client_next]. by rewrite list_insert_id.
    + eapply poll_error; eauto.
Qed.

Lemma client_first_held (identities : list string) :
  held_ids (client_first <$> identities) = [] ∧
  Forall (λ req, is_Some (pb.Req_Browse req)) (client_first <$> identities).
Proof.
  induction identities as [|w ws [IH1 IH2]]; [done|].
  cbn [fmap list_fmap]. rewrite held_ids_cons, IH1. split; [done|].
  apply Forall_cons. split; [by eexists|done].
Qed.

Lemma run_serve_inv fl st0 x z :
  rtc (serve fl) x z →
  (Forall (λ req, is_Some (pb.Req_Browse req)) x.2 ∧
   ∃ held, held ≡ₚ held_ids x.2 ∧ rtc (poll fl) (st0, []) (x.1, held)) →
  Forall (λ req, is_Some (pb.Req_Browse req)) z.2 ∧
  ∃ held, held ≡ₚ held_ids z.2 ∧ rtc (poll fl) (st0, []) (z.1, held).
Proof.
  induction 1 as [x|x y z Hxy _ IH]; [done|].
  intros (Hall & held & Hheld & Hpoll). apply IH.
  destruct x as [st clients], y as [st' clients']. cbn [fst snd] in *.
  destruct (serve_poll _ _ _ _ _ _ Hxy Hall Hheld)
    as (Hall' & held' & Hheld' & Hstep).
  split; [done|]. exists held'. split; [done|]. by eapply rtc_r.
Qed.

Lemma run_serve_poll fl st0 identities st clients :
  rtc (serve fl) (st0, client_first <$> identities) (st, clients) →
  Forall (λ req, is_Some (pb.Req_Browse req)) clients ∧
  ∃ held, held ≡ₚ held_ids clients ∧ rtc (poll fl) (st0, []) (st, held).
Proof.
  intros Hrun. apply (run_serve_inv fl st0 _ _ Hrun). cbn [fst snd].
  destruct (client_first_held identities) as [Hnil Hall].
  split; [done|]. exists []. by rewrite Hnil.
Qed.

(** The clients keep to the protocol: in every run of the server with any
    number of clients, each starting with an empty id, every request
    carries a [Browse], and the run is a run of calls by workers that keep
    to the protocol in which the held ids are, up to their order, the
    non-empty ids of the clients' requests. *)
Theorem clients_keep_to_the_protocol (fl : flags) (st0 st : state)
    (identities : list string) (clients : list pb.Req) :
  rtc (serve fl) (st0, client_first <$> identities) (st, clients) →
  Forall (λ req, is_Some (pb.Req_Browse req)) clients ∧
  ∃ held, held ≡ₚ held_ids clients ∧ rtc (poll fl) (st0, []) (st, held).
Proof. apply run_serve_poll. Qed.

(** With these clients [Work] never panics: whichever client calls next,
    the call returns a reply or an error. *)
Theorem clients_never_panic (fl : flags) (st0 st : state)
    (identities : list string) (clients : list pb.Req) (e : env) (req : pb.Req) :
  rtc (serve fl) (st0, client_first <$> identities) (st, clients) →
  req ∈ clients →
  (Work fl e st req).2 ≠ Panic.
Proof.
  intros Hrun Hin Hpanic.
  destruct (run_serve_poll _ _ _ _ _ Hrun) as [Hall _].
  apply (proj1 (Forall_forall _ _) Hall) in Hin as [b Hb].
  destruct (Work_returns fl e st req b Hb) as [st' [[out HW]|[err HW]]];
    rewrite HW in Hpanic; discriminate.
Qed.

(** A run of the server with one client: the client gets the item "a-0",
    captures 12 bytes, and will report them in its next request. *)
Lemma one_client_run :
  rtc (serve one_row_flags)
    ({| work := {[ "a-0" := {| ID := "a-0"; URL := "http://a.com" |} ]};
        workers := ∅; done := 0; files := ∅ |},
     client_first <$> ["w1"])
    ({| work := ∅; workers := {[ "w1" := "w1" ]}; done := 0; files := ∅ |},
     [report one_row_flags "w1" "a-0" "http://a.com" (replicate 12 "x"%byte)]).
Proof.
  apply rtc_once.
  exact (serve_call one_row_flags {| first := 0; write := WriteOk |}
           {| work := {[ "a-0" := {| ID := "a-0"; URL := "http://a.com" |} ]};
              workers := ∅; done := 0; files := ∅ |}
           (client_first <$> ["w1"]) 0 (client_first "w1")
           {| work := ∅; workers := {[ "w1" := "w1" ]}; done := 0; files := ∅ |}
           (Reply {| pb.ID := "a-0"; pb.URL := "http://a.com"; pb.Timeout := 15;
                     pb.Data := []; pb.AllTraffic := false |})
           (replicate 12 "x"%byte) eq_refl eq_refl ltac:(discriminate)).
Qed.

Lemma clients_keep_to_the_protocol_witness :
  Forall (λ req, is_Some (pb.Req_Browse req))
    [report one_row_flags "w1" "a-0" "http://a.com" (replicate 12 "x"%byte)] ∧
  ∃ held,
    held ≡ₚ held_ids [report one_row_flags "w1" "a-0" "http://a.com"
                        (replicate 12 "x"%byte)] ∧
    rtc (poll one_row_flags)
      ({| work := {[ "a-0" := {| ID := "a-0"; URL := "http://a.com" |} ]};
          workers := ∅; done := 0; files := ∅ |}, [])
      ({| work := ∅; workers := {[ "w1" := "w1" ]}; done := 0; files := ∅ |},
       held).
Proof.
  exact (clients_keep_to_the_protocol one_row_flags _ _ ["w1"] _ one_client_run).
Defined.

Lemma clients_never_panic_witness :
  (Work one_row_flags {| first := 0; write := WriteOk |}
     {| work := ∅; workers := {[ "w1" := "w1" ]}; done := 0; files := ∅ |}
     (report one_row_flags "w1" "a-0" "http://a.com" (replicate 12 "x"%byte))).2
  ≠ Panic.
Proof.
  refine (clients_never_panic one_row_flags _ _ ["w1"] _ _ _ one_client_run _).
  left.
Defined.

Lemma held_ids_lookup_inj (clients : list pb.Req) (i j : nat) (r r' : pb.Req) :
  NoDup (held_ids clients) →
  clients !! i = Some r → clients !! j = Some r' →
  reported_id r ≠ "" → reported_id r = reported_id r' →
  i = j.
Proof.
  revert i j. induction clients as [|x l IH]; intros i j Hnd Hi Hj Hne Heq;
    [done|].
  rewrite held_ids_cons in Hnd. unfold handed_out in Hnd.
  assert (Hmem : ∀ k q, l !! k = Some q → reported_id q ≠ "" →
                        reported_id q ∈ held_ids l).
  { intros k q Hk Hq. by destruct (elem_of_held_ids l k q Hk). }
  destruct i as [|i], j as [|j]; cbn in Hi, Hj.
  - done.
  - injection Hi as ->. rewrite decide_False in Hnd by done.
    apply NoDup_cons in Hnd as [Hnotin _]. destruct Hnotin.
    rewrite Heq. apply (Hmem j r' Hj). congruence.
  - injection Hj as ->. rewrite decide_False in Hnd by congruence.
    apply NoDup_cons in Hnd as [Hnotin _]. destruct Hnotin.
    rewrite <- Heq. by apply (Hmem i r Hi).
  - f_equal. apply IH; try done.
    destruct (decide (reported_id x = "")); [done|].
    by apply NoDup_cons in Hnd as [_ ?].
Qed.

(** No two clients ever work on the same item: in every run of the server,
    started by [main], with its clients, two clients whose requests carry
    the same non-empty id are the same client, and no id a client holds
    is in [work]. *)
Theorem clients_never_share_an_id `{U : url.Lib} (fl : flags)
    (fs : gmap string (list byte)) (pages : list (string * string))
    (st0 st : state) (identities : list string) (clients : list pb.Req) :
  main fl fs pages = Some st0 →
  rtc (serve fl) (st0, client_first <$> identities) (st, clients) →
  (∀ i j r r', clients !! i = Some r → clients !! j = Some r' →
               reported_id r ≠ "" → reported_id r = reported_id r' → i = j) ∧
  (∀ i r, clients !! i = Some r → reported_id r ≠ "" →
          work st !! reported_id r = None).
Proof.
  intros Hm Hrun. apply main_work_ok in Hm.
  destruct (run_serve_poll _ _ _ _ _ Hrun) as (_ & held & Hheld & Hpoll).
  destruct (run_held_ok fl _ _ Hpoll) as (_ & [Hnd Hout] & _).
  { cbn [fst snd]. split_and!; [done| |done].
    split; [apply NoDup_nil_2|]. intros id Hin. by apply elem_of_nil in Hin. }
  cbn [fst snd] in *. rewrite Hheld in Hnd. split.
  - intros i j r r' Hi Hj Hne Heq. by eapply held_ids_lookup_inj.
  - intros i r Hi Hne. apply Hout. rewrite Hheld.
    by destruct (elem_of_held_ids clients i r Hi).
Qed.

Lemma clients_never_share_an_id_witness :
  let clients := [report one_row_flags "w1" "a-0" "http://a.com"
                    (replicate 12 "x"%byte)] in
  let st := {| work := ∅; workers := {[ "w1" := "w1" ]}; done := 0;
               files := ∅ |} in
  (∀ i j r r', clients !! i = Some r → clients !! j = Some r' →
               reported_id r ≠ "" → reported_id r = reported_id r' → i = j) ∧
  (∀ i r, clients !! i = Some r → reported_id r ≠ "" →
          work st !! reported_id r = None).
Proof.
  exact (clients_never_share_an_id one_row_flags ∅ one_row_pages _ _ ["w1"] _
           one_row_main one_client_run).
Defined.

(** The server with its clients conserves the work, and it exits only when
    every client is idle: the items in [work], [done] and the clients that
    hold an id add up to at most rows times samples, and when the progress
    function finds [done] equal to the total, [work] is empty and every
    client's request has an empty id. *)
Theorem server_exits_with_idle_clients `{U : url.Lib} (fl : flags)
    (fs : gmap string (list byte)) (pages : list (string * string))
    (st0 st : state) (identities : list string) (clients : list pb.Req) :
  (0 ≤ samples fl)%Z →
  main fl fs pages = Some st0 →
  rtc (serve fl) (st0, client_first <$> identities) (st, clients) →
  (Z.of_nat (size (work st)) + done st + Z.of_nat (length (held_ids clients))
   ≤ Z.of_nat (length pages) * samples fl)%Z ∧
  ((Z.of_nat (length pages) * samples fl ≤ Go.int_max)%Z →
   finished fl pages st = true →
   work st = ∅ ∧ Forall (λ req, reported_id req = "") clients).
Proof.
  intros Hs Hm Hrun.
  destruct (run_serve_poll _ _ _ _ _ Hrun) as (_ & held & Hheld & Hpoll).
  destruct (main_bound fl fs pages st0 Hs Hm) as [Hmin Hsum].
  destruct (run_conserves fl (st0, []) (st, held)
              (Z.of_nat (length pages) * samples fl)%Z Hpoll) as [_ Hbound].
  { cbn [fst snd length]. split; [done|lia]. }
  cbn [fst snd] in Hbound. rewrite Hheld in Hbound. split; [done|].
  intros Hmax Hfin.
  unfold finished, total in Hfin. apply bool_decide_eq_true in Hfin.
  rewrite wrap_id in Hfin by (unfold Go.int_min; lia).
  split.
  - apply map_size_empty_iff. lia.
  - assert (Hnil : held_ids clients = []) by (apply length_zero_iff_nil; lia).
    apply Forall_forall. intros req Hin.
    destruct (decide (reported_id req = "")) as [|Hne]; [done|exfalso].
    apply list_elem_of_lookup_1 in Hin as [i Hi].
    destruct (elem_of_held_ids clients i req Hi) as [|Hmem]; [done|].
    rewrite Hnil in Hmem. by apply elem_of_nil in Hmem.
Qed.

Lemma server_exits_with_idle_clients_witness :
  let clients := [report one_row_flags "w1" "a-0" "http://a.com"
                    (replicate 12 "x"%byte)] in
  let st := {| work := ∅; workers := {[ "w1" := "w1" ]}; done := 0;
               files := ∅ |} in
  (Z.of_nat (size (work st)) + done st + Z.of_nat (length (held_ids clients))
   ≤ Z.of_nat (length one_row_pages) * samples one_row_flags)%Z ∧
  ((Z.of_nat (length one_row_pages) * samples one_row_flags ≤ Go.int_max)%Z →
   finished one_row_flags one_row_pages st = true →
   work st = ∅ ∧ Forall (λ req, reported_id req = "") clients).
Proof.
  refine (server_exits_with_idle_clients one_row_flags ∅ one_row_pages _ _
            ["w1"] _ _ one_row_main one_client_run).
  vm_compute. discriminate.
Defined.

(** ** The URL of a retry *)

(** The toggle always changes the URL: the item put back after a short
    result never carries the URL that was reported, its URL is exactly four
    bytes longer or four bytes shorter. *)
Theorem toggle_www_changes (u : string) :
  toggle_www u ≠ u ∧
  (String.length (toggle_www u) = String.length u + 4 ∨
   String.length (toggle_www u) + 4 = String.length u)%nat.
Proof.
  assert (Hlen : (String.length (toggle_www u) = String.length u + 4 ∨
                  String.length (toggle_www u) + 4 = String.length u)%nat).
  { destruct (Go.HasPrefix u "www.") eqn:Hu.
    - right. rewrite (HasPrefix_www_inv u Hu) at 1 2.
      rewrite toggle_www_strip, append_length. cbn [String.length]. lia.
    - left. rewrite (toggle_www_add u Hu), append_length.
      cbn [String.length]. lia. }
  split; [|done]. intros Heq. rewrite Heq in Hlen. lia.
Qed.
